(** * Association-rule browser: a shallow embedding of [app.py]

    [app.py] loads a pickled table of association rules and derives views of
    it: a threshold filter, the list of selectable products, the
    recommendations for one product, a searchable display table with its CSV
    export, and summary metrics.  The widgets are inputs of the model and the
    values handed to the rendering calls are its outputs.

    Modelling conventions
    - a DataFrame is the list of its rows, in row order;
    - a float column holds finite values, modelled as rationals ([Q]); the
      [nan] returned by a reduction over an empty column is modelled apart
      ([float]);
    - a [frozenset] of item names is the list of its elements in iteration
      order; membership does not look at that order;
    - [str] is [string]; case folding and regular expressions are modelled
      for ASCII text;
    - a Python [int] is a [Z];
    - pandas, [re] and [csv] are libraries: their functions are modelled by
      what they are documented to do on the values [app.py] passes them. *)

From Stdlib Require Import QArith Qabs Qminmax Ascii String.
From stdpp Require Import gmap strings list sorting pretty.

Local Open Scope string_scope.
Local Open Scope list_scope.
Local Open Scope Z_scope.

(** ** The rule table *)

Record rule : Type := Rule {
  antecedents : list string;
  consequents : list string;
  support : Q;
  confidence : Q;
  lift : Q
}.

Definition DataFrame : Type := list rule.

(** The invariants the data model asks of a record: both item sets
    non-empty and disjoint, support and confidence in [0,1], lift
    non-negative.  Nothing in [app.py] evaluates this predicate. *)
Definition rule_invariants (r : rule) : Prop :=
  antecedents r <> [] /\ consequents r <> [] /\
  (forall x, x ∈ antecedents r -> x ∉ consequents r) /\
  (0 <= support r <= 1)%Q /\ (0 <= confidence r <= 1)%Q /\ (0 <= lift r)%Q.

(** ** Loading the model (app.py, lines 24-36) *)

Module Load.

(** What [joblib.load] finds at ['association_rules.pkl']. *)
Inductive artifact : Type :=
| Absent
| Unreadable
| Pickled (rules : DataFrame).

Inductive exn : Type :=
| FileNotFoundError
| UnpicklingError.

Inductive message : Type :=
| st_error (text : string)
| st_info (text : string).

(** [joblib.load]: raises [FileNotFoundError] when there is no file, an
    unpickling error when the bytes are no pickle, and otherwise returns
    the stored object as it is. *)
Definition joblib_load (a : artifact) : exn + DataFrame :=
  match a with
  | Absent => inl FileNotFoundError
  | Unreadable => inl UnpicklingError
  | Pickled rules => inr rules
  end.

Definition not_found_error : string :=
  "⚠️ No se encontró el archivo 'association_rules.pkl'".
Definition not_found_info : string :=
  "Ejecuta el notebook de entrenamiento primero para generar el modelo.".
Definition no_model_error : string :=
  "No se pudo cargar el modelo. Asegúrate de tener 'association_rules.pkl' en el mismo directorio.".

(** [load_model]: the [try] block returns what [joblib.load] returns; the
    only handler is for [FileNotFoundError], it shows two messages and
    returns [None]; any other exception leaves the function. *)
Definition load_model (a : artifact)
  : exn + (option DataFrame * list message) :=
  match joblib_load a with
  | inr rules => inr (Some rules, [])
  | inl FileNotFoundError =>
      inr (None, [st_error not_found_error; st_info not_found_info])
  | inl e => inl e
  end.

(** The two branches of [if rules is not None: ... else: ...]. *)
Inductive page : Type :=
| MainPage (rules : DataFrame)
| NoModelPage (shown : list message).

Definition startup (a : artifact) : exn + page :=
  match load_model a with
  | inl e => inl e
  | inr (Some rules, _) => inr (MainPage rules)
  | inr (None, shown) =>
      inr (NoModelPage (shown ++ [st_error no_model_error]))
  end.

End Load.

(** ** Threshold filter (app.py, lines 50-53) *)

(** The boolean mask [(rules['confidence'] >= min_confidence) &
    (rules['lift'] >= min_lift)], one row at a time. *)
Definition threshold_mask (min_confidence min_lift : Q) (r : rule) : bool :=
  Qle_bool min_confidence (confidence r) && Qle_bool min_lift (lift r).

Definition rules_filtered (rules : DataFrame) (min_confidence min_lift : Q)
  : DataFrame :=
  List.filter (threshold_mask min_confidence min_lift) rules.

(** ** The selectable products (app.py, lines 65-68) *)

(** [all_products] starts as the empty set, is updated with every antecedent
    of the full table, and is then turned into a sorted list.  [sorted]
    compares strings by code point; on the byte strings of the model that is
    [String.le]. *)
Definition all_products (rules : DataFrame) : list string :=
  let all_products : gset string :=
    foldl (fun acc itemset => acc ∪ list_to_set itemset) ∅
          (antecedents <$> rules) in
  merge_sort String.le (elements all_products).

(** ** Recommendations (app.py, lines 85-93) *)

(** [DataFrame.nlargest(n, column)] with the default [keep='first']: the
    rows in descending order of the column, rows with equal values in their
    original order, cut after [n] rows ([n <= 0] gives no row). *)
Fixpoint insert_desc {A} (key : A -> Q) (x : A) (l : list A) : list A :=
  match l with
  | [] => [x]
  | y :: l' =>
      if Qle_bool (key y) (key x) then x :: y :: l'
      else y :: insert_desc key x l'
  end.

Fixpoint sort_desc {A} (key : A -> Q) (l : list A) : list A :=
  match l with
  | [] => []
  | x :: l' => insert_desc key x (sort_desc key l')
  end.

Definition nlargest {A} (n : Z) (key : A -> Q) (df : list A) : list A :=
  take (Z.to_nat n) (sort_desc key df).

(** Descending order of a column, and the rows holding the value [v] in that
    column, in row order. *)
Definition desc {A} (key : A -> Q) (a b : A) : Prop := (key b <= key a)%Q.

Definition with_key {A} (key : A -> Q) (v : Q) (l : list A) : list A :=
  List.filter (fun a => Qeq_bool (key a) v) l.

(** [lambda x: selected_product in x] on a frozenset. *)
Definition has_antecedent (selected_product : string) (r : rule) : bool :=
  bool_decide (selected_product ∈ antecedents r).

(** The first value of [recommendations]: the rows of the filtered view
    whose antecedent holds the product. *)
Definition matching_rules (rules_filtered : DataFrame)
    (selected_product : string) : DataFrame :=
  List.filter (has_antecedent selected_product) rules_filtered.

(** The value of [recommendations] after the button handler: when at least
    one row matches, the [top_n] matching rows by lift. *)
Definition recommendations (rules_filtered : DataFrame)
    (selected_product : string) (top_n : Z) : DataFrame :=
  let recommendations := matching_rules rules_filtered selected_product in
  if 0 <? Z.of_nat (length recommendations)
  then nlargest top_n lift recommendations
  else recommendations.

(** Two rows that differ at most in the iteration order of their item
    sets: what two runs of the interpreter, with different string hashes,
    make of the same stored record. *)
Definition same_rule (r1 r2 : rule) : Prop :=
  antecedents r1 ≡ₚ antecedents r2 /\ consequents r1 ≡ₚ consequents r2 /\
  support r1 = support r2 /\ confidence r1 = confidence r2 /\
  lift r1 = lift r2.

(** ** Fixed-point formatting *)

(** Python formats the exact value of a float and rounds halves to even. *)
Definition round_half_even (x : Q) : Z :=
  let n := Qnum x in
  let d := Z.pos (Qden x) in
  let fl := n / d in
  match 2 * (n mod d) ?= d with
  | Lt => fl
  | Gt => fl + 1
  | Eq => if Z.even fl then fl else fl + 1
  end.

(** The [k] low decimal digits of [n], most significant first. *)
Fixpoint fixed_digits (k : nat) (n : Z) : string :=
  match k with
  | O => ""
  | S k' =>
      fixed_digits k' (n / 10) +:+
      String (pretty_N_char (Z.to_N (n mod 10))) ""
  end.

(** [f"{x:.<prec>f}"] for a finite [x]. *)
Definition format_f (prec : nat) (x : Q) : string :=
  let scale := 10 ^ Z.of_nat prec in
  let n := round_half_even (Qabs x * inject_Z scale) in
  (if Qle_bool 0 x then "" else "-") +:+
  pretty (Z.to_N (n / scale)) +:+
  match prec with
  | O => ""
  | _ => "." +:+ fixed_digits prec (n mod scale)
  end.

(** A string in fixed-point notation with [prec] decimals: an optional
    minus sign, at least one digit, a point, exactly [prec] digits. *)
Definition is_digit (c : ascii) : bool :=
  let n := N_of_ascii c in (48 <=? n)%N && (n <=? 57)%N.

Fixpoint all_digits (s : string) : bool :=
  match s with
  | "" => true
  | String c s' => is_digit c && all_digits s'
  end.

Definition fixed_point (prec : nat) (s : string) : Prop :=
  exists sign ip frac,
    s = sign +:+ ip +:+ "." +:+ frac /\
    (sign = "" \/ sign = "-") /\
    ip <> "" /\ all_digits ip = true /\
    all_digits frac = true /\ String.length frac = prec.

(** The result of a pandas reduction: a number, or [nan] on an empty
    column. *)
Inductive float : Type :=
| finite (q : Q)
| nan.

Definition format_float (prec : nat) (x : float) : string :=
  match x with
  | finite q => format_f prec q
  | nan => "nan"
  end.

(** [f"{x:.<prec>%}"]: the value times 100, in fixed point, then a percent
    sign.  The product is taken exactly here; Python takes it in double
    precision, which can move a value that lies at a rounding boundary to
    the other side (0.30245 is shown as 30.25%, not 30.24%).  Nothing below
    is stated about the digits of a percentage. *)
Definition format_percent (prec : nat) (x : float) : string :=
  match x with
  | finite q => format_f prec (q * 100) +:+ "%"
  | nan => "nan%"
  end.

(** ** The display table (app.py, lines 122-141) *)

Record display_row : Type := DisplayRow {
  Antecedente : string;
  Consecuente : string;
  Support : string;
  Confidence : string;
  Lift : string
}.

(** [', '.join(list(x))] *)
Definition join_items (x : list string) : string := String.concat ", " x.

Definition display_df (rules_filtered : DataFrame) : list display_row :=
  (fun r =>
     {| Antecedente := join_items (antecedents r);
        Consecuente := join_items (consequents r);
        Support := format_f 4 (support r);
        Confidence := format_f 4 (confidence r);
        Lift := format_f 2 (lift r) |}) <$> rules_filtered.

(** ** Search (app.py, lines 144-151) *)

(** [Series.str.contains(pat, case=False)] keeps the default [regex=True]:
    [pat] is compiled as a regular expression with [re.IGNORECASE] and a
    string is kept when [search] finds a match somewhere in it.

    The model is exact on a fragment and says so: the patterns made of
    ASCII characters whose only metacharacter is [.], matched against ASCII
    text.  There one byte is one character and letter case is the case of
    the letters A to Z.  On any other pattern [compile] answers [None], and
    [None] means only that the pattern is outside the fragment: the code
    may return rows (for [^b]) or raise (for an open parenthesis), and the
    model says nothing about which. *)
Module Re.

Inductive atom : Type :=
| lit (c : ascii)
| any.

Definition LF : ascii := "010"%char.

Definition special (c : ascii) : bool :=
  bool_decide (c ∈ ["."; "^"; "$"; "*"; "+"; "?"; "{"; "}"; "["; "]";
                    "\"; "|"; "("; ")"]%char).

(** A byte that is a character of its own, and the texts made of such. *)
Definition is_ascii (c : ascii) : bool := (N_of_ascii c <? 128)%N.

Definition ascii_only (s : string) : bool :=
  forallb is_ascii (list_ascii_of_string s).

Fixpoint compile (pat : string) : option (list atom) :=
  match pat with
  | "" => Some []
  | String c pat' =>
      a ← (if negb (is_ascii c) then None
           else if Ascii.eqb c "." then Some any
           else if special c then None else Some (lit c));
      re ← compile pat';
      Some (a :: re)
  end.

(** The patterns of the fragment. *)
Definition in_fragment (pat : string) : bool :=
  forallb (fun c => is_ascii c && (Ascii.eqb c "." || negb (special c)))
          (list_ascii_of_string pat).


Definition lower (c : ascii) : ascii :=
  let n := N_of_ascii c in
  if (65 <=? n)%N && (n <=? 90)%N then ascii_of_N (n + 32) else c.

Definition atom_matches (a : atom) (d : ascii) : bool :=
  match a with
  | lit c => Ascii.eqb (lower c) (lower d)
  | any => negb (Ascii.eqb d LF)
  end.

Fixpoint match_here (re : list atom) (s : string) : bool :=
  match re, s with
  | [], _ => true
  | _ :: _, "" => false
  | a :: re', String d s' => atom_matches a d && match_here re' s'
  end.

Fixpoint search (re : list atom) (s : string) : bool :=
  match_here re s ||
  match s with
  | "" => false
  | String _ s' => search re s'
  end.

End Re.

(** The texts of the display table are within the fragment. *)
Definition ascii_texts (display_df : list display_row) : bool :=
  forallb (fun row => Re.ascii_only (Antecedente row) &&
                      Re.ascii_only (Consecuente row))
          display_df.

(** The value of [display_df] after the [if search:] block; [None] when the
    pattern or a text of the table is outside the fragment. *)
Definition search_view (display_df : list display_row) (search : string)
  : option (list display_row) :=
  match search with
  | "" => Some display_df
  | _ =>
      re ← Re.compile search;
      if ascii_texts display_df
      then Some (List.filter
                   (fun row => Re.search re (Antecedente row) ||
                               Re.search re (Consecuente row))
                   display_df)
      else None
  end.

(** The reading of the search the specification gives: [q] occurs in [s] as
    a literal substring, letter case ignored. *)
Fixpoint lower_string (s : string) : string :=
  match s with
  | "" => ""
  | String c s' => String (Re.lower c) (lower_string s')
  end.

Definition occurs_ignoring_case (q s : string) : Prop :=
  exists pre suf, lower_string s = pre +:+ lower_string q +:+ suf.




(** ** CSV export (app.py, line 160) *)

(** [to_csv(index=False)] writes the column names and then the rows with the
    [csv] module: fields separated by commas, every line ended by the line
    separator of the host, here a line feed; a field holding the delimiter,
    the quote character or a character of the line terminator is put in
    double quotes with its quotes doubled.  A carriage return alone does not
    call for quotes. *)
Module Csv.

Definition quotechar : ascii := "034"%char.

Fixpoint needs_quotes (field : string) : bool :=
  match field with
  | "" => false
  | String c field' =>
      bool_decide (c ∈ [","%char; quotechar; Re.LF]) || needs_quotes field'
  end.

Fixpoint double_quotes (field : string) : string :=
  match field with
  | "" => ""
  | String c field' =>
      if Ascii.eqb c quotechar
      then String c (String c (double_quotes field'))
      else String c (double_quotes field')
  end.

Definition write_field (field : string) : string :=
  if needs_quotes field
  then String quotechar (double_quotes field) +:+ String quotechar ""
  else field.

Definition writerow (fields : list string) : string :=
  String.concat "," (write_field <$> fields) +:+ String Re.LF "".

Definition columns : list string :=
  ["Antecedente"; "Consecuente"; "Support"; "Confidence"; "Lift"].

Definition cells (row : display_row) : list string :=
  [Antecedente row; Consecuente row; Support row; Confidence row; Lift row].

Definition to_csv (df : list display_row) : string :=
  writerow columns +:+ String.concat "" (writerow <$> (cells <$> df)).

(** A data line as it reads in the file: the two texts as [write_field]
    leaves them, the three numbers as formatted. *)
Definition row_line (row : display_row) : string :=
  write_field (Antecedente row) +:+ "," +:+
  write_field (Consecuente row) +:+ "," +:+
  Support row +:+ "," +:+ Confidence row +:+ "," +:+ Lift row +:+
  String Re.LF "".

(** The text before the first line feed. *)
Fixpoint first_line (s : string) : string :=
  match s with
  | "" => ""
  | String c s' => if Ascii.eqb c Re.LF then "" else String c (first_line s')
  end.

End Csv.

(** The downloadable [csv] of the view shown in the second tab. *)
Definition csv (rules_filtered : DataFrame) (search : string)
  : option string :=
  Csv.to_csv <$> search_view (display_df rules_filtered) search.

(** ** Metrics (app.py, lines 39-42 and 172-191) *)

(** [Series.mean()]: the sum over the count when the count is positive,
    [nan] otherwise.  The sum and the quotient are exact here; pandas
    computes them in double precision, so only the empty case and the guard
    are stated below, not the value of a mean. *)
Definition Series_mean (col : list Q) : float :=
  let count := Z.of_nat (length col) in
  if 0 <? count
  then finite (foldl Qplus 0%Q col / inject_Z count)
  else nan.

(** [Series.max()]: [nan] on an empty column. *)
Definition Series_max (col : list Q) : float :=
  match col with
  | [] => nan
  | x :: col' => finite (foldl Qmax x col')
  end.

Record sidebar : Type := Sidebar {
  total_de_reglas : Z;
  support_promedio : string;
  confidence_promedio : string;
  lift_promedio : string
}.

Definition sidebar_metrics (rules : DataFrame) : sidebar :=
  {| total_de_reglas := Z.of_nat (length rules);
     support_promedio := format_float 4 (Series_mean (support <$> rules));
     confidence_promedio :=
       format_float 4 (Series_mean (confidence <$> rules));
     lift_promedio := format_float 2 (Series_mean (lift <$> rules)) |}.

Record statistics : Type := Statistics {
  total_reglas : Z;
  total_reglas_delta : string;
  lift_maximo : string;
  confidence_maximo : string
}.

Definition tab3_metrics (rules rules_filtered : DataFrame) : statistics :=
  {| total_reglas := Z.of_nat (length rules_filtered);
     total_reglas_delta :=
       pretty (Z.of_nat (length rules_filtered) - Z.of_nat (length rules))
       +:+ " del total";
     lift_maximo := format_float 2 (Series_max (lift <$> rules_filtered));
     confidence_maximo :=
       format_percent 2 (Series_max (confidence <$> rules_filtered)) |}.

(** ** A small table *)

Definition bread_butter : rule := Rule ["bread"] ["butter"] 0.10 0.60 1.8.
Definition bread_jam : rule := Rule ["bread"] ["jam"] 0.05 0.40 1.1.
Definition milk_bread : rule := Rule ["milk"] ["bread"] 0.08 0.55 1.3.
Definition example_rules : DataFrame := [bread_butter; bread_jam; milk_bread].

(** A record that breaks the invariants of the data model. *)
Definition malformed_rule : rule := Rule [] [] 2 2 (-1).

Definition example_csv : string :=
  "Antecedente,Consecuente,Support,Confidence,Lift" +:+ String Re.LF "" +:+
  "bread,butter,0.1000,0.6000,1.80" +:+ String Re.LF "".

(** ** Showing the recommendations (app.py, lines 91-115) *)

Inductive lookup_error : Type := IndexError.

(** [list(x)[0]]: the first element in iteration order, [IndexError] on an
    empty set. *)
Definition first_item (x : list string) : lookup_error + string :=
  match x with
  | [] => inl IndexError
  | a :: _ => inr a
  end.

Inductive widget : Type :=
| st_success (text : string)
| st_warning (text : string)
| st_info (text : string)
| recommendation_card (title confidence lift support : string).

(** One pass of the [for idx, row in recommendations.iterrows()] loop: the
    heading with the first consequent and the three metrics. *)
Definition show_card (row : rule) : lookup_error + widget :=
  match first_item (consequents row) with
  | inl e => inl e
  | inr consequent =>
      inr (recommendation_card
             ("### 📦 " +:+ consequent)
             (format_percent 2 (finite (confidence row)))
             (format_f 2 (lift row))
             (format_f 3 (support row)))
  end.

(** The loop: the widgets drawn, and the exception that stopped it if any. *)
Fixpoint show_cards (rows : list rule) : list widget * option lookup_error :=
  match rows with
  | [] => ([], None)
  | row :: rows' =>
      match show_card row with
      | inl e => ([], Some e)
      | inr w => let '(ws, e) := show_cards rows' in (w :: ws, e)
      end
  end.

(** The handler of the button [Buscar Recomendaciones]. *)
Definition buscar_recomendaciones (rules_filtered : DataFrame)
    (selected_product : string) (top_n : Z)
  : list widget * option lookup_error :=
  let recommendations := matching_rules rules_filtered selected_product in
  if 0 <? Z.of_nat (length recommendations)
  then
    let recommendations := nlargest top_n lift recommendations in
    let '(ws, e) := show_cards recommendations in
    (st_success ("✅ Se encontraron " +:+
                 pretty (Z.of_nat (length recommendations)) +:+
                 " recomendaciones") :: ws, e)
  else
    ([st_warning ("⚠️ No se encontraron recomendaciones para: **" +:+
                  selected_product +:+ "**");
      st_info "Intenta ajustar los filtros en el sidebar o selecciona otro producto."],
     None).

(** ** Top 10 rules (app.py, lines 208-217) *)

Definition top_10 (rules_filtered : DataFrame) : DataFrame :=
  nlargest 10 lift rules_filtered.

(** Characters of a text held as UTF-8: a byte [10xxxxxx] continues the
    character before it, any other byte starts one.  [char_count] is [len]
    and [take_chars n s] is [s[:n]]. *)
Definition continuation (c : ascii) : bool :=
  let n := N_of_ascii c in (128 <=? n)%N && (n <? 192)%N.

Fixpoint char_count (s : string) : nat :=
  match s with
  | "" => 0%nat
  | String c s' => ((if continuation c then 0 else 1) + char_count s')%nat
  end.

Fixpoint take_chars (n : nat) (s : string) : string :=
  match s with
  | "" => ""
  | String c s' =>
      if continuation c then String c (take_chars n s')
      else match n with
           | O => ""
           | S n' => String c (take_chars n' s')
           end
  end.

(** [f"{list(a)[0][:30]} → {list(c)[0][:30]}"] *)
Definition regla (a c : list string) : lookup_error + string :=
  match first_item a with
  | inl e => inl e
  | inr a0 =>
      match first_item c with
      | inl e => inl e
      | inr c0 => inr (take_chars 30 a0 +:+ " → " +:+ take_chars 30 c0)
      end
  end.

(** The list comprehension over [zip(top_10['antecedents'],
    top_10['consequents'])]. *)
Fixpoint reglas (rows : list rule) : lookup_error + list string :=
  match rows with
  | [] => inr []
  | row :: rows' =>
      match regla (antecedents row) (consequents row) with
      | inl e => inl e
      | inr label =>
          match reglas rows' with
          | inl e => inl e
          | inr labels => inr (label :: labels)
          end
      end
  end.

Record top_10_row : Type := Top10Row {
  Regla : string;
  top_Lift : Q;
  top_Confidence : Q
}.

Definition top_10_display (rules_filtered : DataFrame)
  : lookup_error + list top_10_row :=
  let top_10 := top_10 rules_filtered in
  match reglas top_10 with
  | inl e => inl e
  | inr labels =>
      inr (zip_with (fun label row =>
                       {| Regla := label;
                          top_Lift := lift row;
                          top_Confidence := confidence row |})
                    labels top_10)
  end.

(** ** Bar charts (app.py, lines 199-204) *)

(** [Series.value_counts().sort_index()]: the distinct values of the column
    in ascending order, each with the number of rows that hold it. *)
Fixpoint count_value (v : Q) (counts : list (Q * nat)) : list (Q * nat) :=
  match counts with
  | [] => [(v, 1%nat)]
  | (w, k) :: counts' =>
      match (v ?= w)%Q with
      | Lt => (v, 1%nat) :: (w, k) :: counts'
      | Eq => (w, S k) :: counts'
      | Gt => (w, k) :: count_value v counts'
      end
  end.

Definition value_counts_sorted (col : list Q) : list (Q * nat) :=
  foldr count_value [] col.

(** ** Reading digits *)

(** The number a string of decimal digits denotes, after the digits [acc]
    already read. *)
Fixpoint digits_value_from (acc : Z) (s : string) : Z :=
  match s with
  | "" => acc
  | String c s' => digits_value_from (10 * acc + (Z.of_N (N_of_ascii c) - 48)) s'
  end.

Definition digits_value (s : string) : Z := digits_value_from 0 s.

(** The number of line feeds of a text. *)
Fixpoint count_LF (s : string) : nat :=
  match s with
  | "" => 0%nat
  | String c s' => ((if Ascii.eqb c Re.LF then 1 else 0) + count_LF s')%nat
  end.

(** * Properties *)

(** ** Threshold filter *)

Lemma threshold_mask_true c l r :
  threshold_mask c l r = true <-> (c <= confidence r)%Q /\ (l <= lift r)%Q.
Proof.
  unfold threshold_mask.
  rewrite andb_true_iff, !Qle_bool_iff. tauto.
Qed.

Lemma filter_sublist {A} (f : A -> bool) (l : list A) :
  sublist (List.filter f l) l.
Proof.
  induction l as [|x l IH]; simpl.
  - constructor.
  - destruct (f x); now constructor.
Qed.

(** C1: for every table [R] and thresholds [c], [l], the threshold filter
    returns exactly the rows of [R] with [confidence >= c] and [lift >= l]:
    the result is a sub-sequence of [R], a row is in the result iff it is in
    [R] and satisfies both inequalities, and a row of [R] failing either
    inequality is absent. *)
Theorem rules_filtered_exact (R : DataFrame) (c l : Q) :
  sublist (rules_filtered R c l) R /\
  (forall r, In r (rules_filtered R c l) <->
             In r R /\ (c <= confidence r)%Q /\ (l <= lift r)%Q) /\
  (forall r, In r R -> ~ ((c <= confidence r)%Q /\ (l <= lift r)%Q) ->
             ~ In r (rules_filtered R c l)).
Proof.
  split; [apply filter_sublist|].
  assert (H : forall r, In r (rules_filtered R c l) <->
                        In r R /\ (c <= confidence r)%Q /\ (l <= lift r)%Q).
  { intros r. unfold rules_filtered.
    rewrite filter_In, threshold_mask_true. reflexivity. }
  split; [exact H|].
  intros r _ Hfail Hin. apply Hfail, H, Hin.
Qed.

Lemma filter_idem {A} (f : A -> bool) (l : list A) :
  List.filter f (List.filter f l) = List.filter f l.
Proof.
  induction l as [|x l IH]; simpl; [reflexivity|].
  destruct (f x) eqn:E; simpl; rewrite ?E, IH; reflexivity.
Qed.

(** C7: the threshold filter is idempotent: filtering the filtered view
    again with the same thresholds gives the same view. *)
Theorem rules_filtered_idempotent (R : DataFrame) (c l : Q) :
  rules_filtered (rules_filtered R c l) c l = rules_filtered R c l.
Proof. apply filter_idem. Qed.

(** ** Selectable products *)

Lemma elem_of_union_antecedents (L : list (list string)) (S0 : gset string) x :
  x ∈ foldl (fun acc itemset => acc ∪ list_to_set itemset) S0 L <->
  x ∈ S0 \/ exists itemset, itemset ∈ L /\ x ∈ itemset.
Proof.
  revert S0. induction L as [|it L IH]; intros S0; simpl.
  - split; [auto|]. intros [?|(it & Hit & _)]; [done|]. inversion Hit.
  - rewrite IH, elem_of_union, elem_of_list_to_set. split.
    + intros [[?|?]|(it' & ? & ?)]; [by left| |].
      * right. exists it. split; [left|done].
      * right. exists it'. split; [by right|done].
    + intros [?|(it' & Hin & ?)]; [by left; left|].
      apply elem_of_cons in Hin as [->|?]; [by left; right|].
      right. by exists it'.
Qed.

(** C8: the selectable products are the items that occur in the antecedent
    of some rule of the full table, each once, in ascending lexicographic
    order. *)
Theorem all_products_spec (R : DataFrame) :
  (forall x, x ∈ all_products R <-> exists r, r ∈ R /\ x ∈ antecedents r) /\
  NoDup (all_products R) /\
  StronglySorted String.le (all_products R).
Proof.
  unfold all_products. split; [|split].
  - intros x. rewrite merge_sort_Permutation, elem_of_elements.
    rewrite elem_of_union_antecedents. split.
    + intros [Hx|(it & Hit & Hx)]; [set_solver|].
      apply list_elem_of_fmap in Hit as (r & -> & Hr). by exists r.
    + intros (r & Hr & Hx). right. exists (antecedents r).
      split; [|done]. apply list_elem_of_fmap. by exists r.
  - rewrite merge_sort_Permutation. apply NoDup_elements.
  - apply StronglySorted_merge_sort; apply _.
Qed.

(** ** [nlargest] *)

Section nlargest.
Context {A : Type} (key : A -> Q).

Lemma insert_desc_perm x l : insert_desc key x l ≡ₚ x :: l.
Proof.
  induction l as [|y l IH]; simpl; [done|].
  destruct (Qle_bool (key y) (key x)); [done|].
  rewrite IH. apply Permutation_swap.
Qed.

Lemma sort_desc_perm l : sort_desc key l ≡ₚ l.
Proof.
  induction l as [|x l IH]; simpl; [done|].
  by rewrite insert_desc_perm, IH.
Qed.

Lemma Qle_bool_false x y : Qle_bool x y = false -> (y < x)%Q.
Proof.
  intros H. apply Qnot_le_lt. intros Hle.
  apply Qle_bool_iff in Hle. congruence.
Qed.

Lemma insert_desc_sorted x l :
  StronglySorted (desc key) l -> StronglySorted (desc key) (insert_desc key x l).
Proof.
  induction 1 as [|y l Hl IH Hy]; simpl.
  - repeat constructor.
  - destruct (Qle_bool (key y) (key x)) eqn:E.
    + apply Qle_bool_iff in E. constructor; [by constructor|].
      constructor; [done|].
      eapply Forall_impl; [exact Hy|]. intros z Hz. unfold desc in *.
      eapply Qle_trans; eassumption.
    + apply Qle_bool_false in E. constructor; [done|].
      rewrite insert_desc_perm. constructor; [|done].
      by apply Qlt_le_weak.
Qed.

Lemma sort_desc_sorted l : StronglySorted (desc key) (sort_desc key l).
Proof.
  induction l; simpl; [constructor|by apply insert_desc_sorted].
Qed.

Lemma with_key_insert_desc v x l :
  with_key key v (insert_desc key x l) = with_key key v (x :: l).
Proof.
  induction l as [|y l IH]; simpl; [done|].
  destruct (Qle_bool (key y) (key x)) eqn:E; [done|].
  apply Qle_bool_false in E.
  unfold with_key in *. simpl in *. rewrite IH.
  destruct (Qeq_bool (key y) v) eqn:Ey, (Qeq_bool (key x) v) eqn:Ex; try done.
  apply Qeq_bool_iff in Ey, Ex. rewrite Ey, Ex in E.
  by apply Qlt_irrefl in E.
Qed.

(** Sorting is stable: rows with equal keys keep their order. *)
Lemma sort_desc_stable v l : with_key key v (sort_desc key l) = with_key key v l.
Proof.
  induction l as [|x l IH]; simpl; [done|].
  rewrite with_key_insert_desc. unfold with_key in *. simpl. by rewrite IH.
Qed.

Lemma filter_take_prefix (f : A -> bool) n l :
  List.filter f (take n l) `prefix_of` List.filter f l.
Proof.
  revert n. induction l as [|x l IH]; intros [|n]; simpl;
    try apply prefix_nil.
  destruct (f x); [apply prefix_cons|]; apply IH.
Qed.

Lemma StronglySorted_take (R : relation A) n l :
  StronglySorted R l -> StronglySorted R (take n l).
Proof.
  intros H. rewrite <-(take_drop n l) in H.
  by apply StronglySorted_app_1_l in H.
Qed.

Lemma nlargest_sorted n l : StronglySorted (desc key) (nlargest n key l).
Proof. apply StronglySorted_take, sort_desc_sorted. Qed.

Lemma nlargest_stable n v l :
  with_key key v (nlargest n key l) `prefix_of` with_key key v l.
Proof.
  unfold nlargest. rewrite <-(sort_desc_stable v l).
  apply filter_take_prefix.
Qed.

Lemma nlargest_length n l :
  length (nlargest n key l) = Nat.min (Z.to_nat n) (length l).
Proof.
  unfold nlargest. by rewrite length_take, (Permutation_length (sort_desc_perm l)).
Qed.

Lemma nlargest_elem_of n l x : x ∈ nlargest n key l -> x ∈ l.
Proof.
  unfold nlargest. intros H%elem_of_take.
  destruct H as (i & H & _). apply list_elem_of_lookup_2 in H.
  by rewrite sort_desc_perm in H.
Qed.

(** The rows left out have a key no larger than any row kept. *)
Lemma nlargest_top n l :
  exists rest, nlargest n key l ++ rest ≡ₚ l /\
    forall a b, a ∈ nlargest n key l -> b ∈ rest -> desc key a b.
Proof.
  exists (drop (Z.to_nat n) (sort_desc key l)). unfold nlargest. split.
  - by rewrite take_drop, sort_desc_perm.
  - intros a b Ha Hb. pose proof (sort_desc_sorted l) as H.
    rewrite <-(take_drop (Z.to_nat n)) in H.
    by eapply StronglySorted_app_1_elem_of in H.
Qed.

End nlargest.

(** ** Recommendations *)

Lemma recommendations_nlargest R i n :
  recommendations R i n = nlargest n lift (matching_rules R i).
Proof.
  unfold recommendations.
  destruct (matching_rules R i) as [|r l] eqn:E; [|done].
  simpl. unfold nlargest. simpl. by rewrite take_nil.
Qed.

Lemma recommendations_elem_of R i n r :
  r ∈ recommendations R i n -> r ∈ R /\ i ∈ antecedents r.
Proof.
  rewrite recommendations_nlargest. intros H%nlargest_elem_of.
  unfold matching_rules in H. apply list_elem_of_In, filter_In in H as [H1 H2].
  split; [by apply list_elem_of_In|].
  unfold has_antecedent in H2. by apply bool_decide_eq_true in H2.
Qed.

Lemma nlargest_submseteq {A} (key : A -> Q) n l : nlargest n key l ⊆+ l.
Proof.
  unfold nlargest. rewrite <-(sort_desc_perm key l) at 2.
  apply sublist_submseteq, sublist_take.
Qed.

(** C2: for every table [R], item [i] and [n >= 1], every recommended rule
    has [i] in its antecedent (exact membership) and is one of the matching
    rules of [R]; there are at most [min n (number of matching rules)] of
    them; they are in descending order of lift; and rules of equal lift keep
    the relative order they have in [R]: for every value [v], the recommended
    rules of lift [v] are an initial segment of the matching rules of lift
    [v], in table order. *)
Theorem recommendations_spec (R : DataFrame) (i : string) (n : Z) :
  1 <= n ->
  Forall (fun r => i ∈ antecedents r) (recommendations R i n) /\
  recommendations R i n ⊆+ matching_rules R i /\
  Z.of_nat (length (recommendations R i n))
    <= Z.min n (Z.of_nat (length (matching_rules R i))) /\
  StronglySorted (desc lift) (recommendations R i n) /\
  forall v, with_key lift v (recommendations R i n)
            `prefix_of` with_key lift v (matching_rules R i).
Proof.
  intros Hn. split; [|split; [|split; [|split]]].
  - apply Forall_forall. intros r Hr.
    by apply recommendations_elem_of in Hr as [_ ?].
  - rewrite recommendations_nlargest. apply nlargest_submseteq.
  - rewrite recommendations_nlargest, nlargest_length. lia.
  - rewrite recommendations_nlargest. apply nlargest_sorted.
  - intros v. rewrite recommendations_nlargest. apply nlargest_stable.
Qed.

Lemma recommendations_spec_witness :
  1 <= 5 /\
  Forall (fun r => "bread" ∈ antecedents r)
         (recommendations example_rules "bread" 5) /\
  recommendations example_rules "bread" 5
    ⊆+ matching_rules example_rules "bread" /\
  Z.of_nat (length (recommendations example_rules "bread" 5))
    <= Z.min 5 (Z.of_nat (length (matching_rules example_rules "bread"))) /\
  StronglySorted (desc lift) (recommendations example_rules "bread" 5) /\
  forall v, with_key lift v (recommendations example_rules "bread" 5)
            `prefix_of` with_key lift v (matching_rules example_rules "bread").
Proof.
  split; [lia|]. apply (recommendations_spec example_rules "bread" 5). lia.
Defined.

(** ** Determinism *)

Lemma Forall2_filter_ext {A B} (P : A -> B -> Prop) f g l1 l2 :
  (forall x y, P x y -> f x = g y) ->
  Forall2 P l1 l2 -> Forall2 P (List.filter f l1) (List.filter g l2).
Proof.
  intros Hfg. induction 1 as [|x y l1 l2 Hxy _ IH]; simpl; [constructor|].
  rewrite (Hfg x y Hxy). destruct (g y); [by constructor|done].
Qed.

Lemma Forall2_insert_desc {A B} (P : A -> B -> Prop) kx ky x y l1 l2 :
  (forall x y, P x y -> kx x = ky y) ->
  P x y -> Forall2 P l1 l2 ->
  Forall2 P (insert_desc kx x l1) (insert_desc ky y l2).
Proof.
  intros Hk Hxy. induction 1 as [|x' y' l1 l2 Hxy' Hl IH]; simpl.
  - by repeat constructor.
  - rewrite (Hk x y Hxy), (Hk x' y' Hxy').
    destruct (Qle_bool (ky y') (ky y)); repeat (constructor; try done).
Qed.

Lemma Forall2_sort_desc {A B} (P : A -> B -> Prop) kx ky l1 l2 :
  (forall x y, P x y -> kx x = ky y) ->
  Forall2 P l1 l2 -> Forall2 P (sort_desc kx l1) (sort_desc ky l2).
Proof.
  intros Hk. induction 1; simpl; [constructor|].
  by apply Forall2_insert_desc.
Qed.

Lemma same_rule_has_antecedent i r1 r2 :
  same_rule r1 r2 -> has_antecedent i r1 = has_antecedent i r2.
Proof.
  intros (Ha & _). unfold has_antecedent. apply bool_decide_ext.
  by rewrite Ha.
Qed.

(** C9: the recommendations are a function of the table, the item and
    [top_n] alone.  Two runs that read the same records, whatever order their
    item sets are iterated in, return the same rules at the same positions,
    rules of equal lift included. *)
Theorem recommendations_deterministic (R1 R2 : DataFrame) (i : string)
    (n : Z) :
  Forall2 same_rule R1 R2 ->
  Forall2 same_rule (recommendations R1 i n) (recommendations R2 i n) /\
  (R1 = R2 -> recommendations R1 i n = recommendations R2 i n).
Proof.
  intros H. split; [|by intros ->].
  rewrite !recommendations_nlargest. unfold nlargest.
  apply Forall2_take, Forall2_sort_desc.
  - by intros r1 r2 (_ & _ & _ & _ & ?).
  - unfold matching_rules.
    apply Forall2_filter_ext; [|done]. apply same_rule_has_antecedent.
Qed.

Lemma recommendations_deterministic_witness :
  Forall2 same_rule
    [Rule ["bread"; "milk"] ["jam"] 0.05 0.40 1.1; bread_butter]
    [Rule ["milk"; "bread"] ["jam"] 0.05 0.40 1.1; bread_butter] /\
  Forall2 same_rule
    (recommendations
       [Rule ["bread"; "milk"] ["jam"] 0.05 0.40 1.1; bread_butter] "bread" 5)
    (recommendations
       [Rule ["milk"; "bread"] ["jam"] 0.05 0.40 1.1; bread_butter] "bread" 5) /\
  ([Rule ["bread"; "milk"] ["jam"] 0.05 0.40 1.1; bread_butter]
   = [Rule ["milk"; "bread"] ["jam"] 0.05 0.40 1.1; bread_butter] ->
   recommendations
     [Rule ["bread"; "milk"] ["jam"] 0.05 0.40 1.1; bread_butter] "bread" 5
   = recommendations
       [Rule ["milk"; "bread"] ["jam"] 0.05 0.40 1.1; bread_butter] "bread" 5).
Proof.
  split; [repeat constructor|].
  apply (recommendations_deterministic
           [Rule ["bread"; "milk"] ["jam"] 0.05 0.40 1.1; bread_butter]
           [Rule ["milk"; "bread"] ["jam"] 0.05 0.40 1.1; bread_butter]
           "bread" 5).
  repeat constructor.
Defined.

(** ** The pipeline *)

Lemma pipeline_thresholds R c l i n :
  Forall (fun r => (c <= confidence r)%Q /\ (l <= lift r)%Q)
         (recommendations (rules_filtered R c l) i n).
Proof.
  apply Forall_forall. intros r [Hr _]%recommendations_elem_of.
  apply list_elem_of_In in Hr. unfold rules_filtered in Hr.
  apply filter_In in Hr as [_ Hr]. by apply threshold_mask_true.
Qed.

(** C10: every rule recommended from the filtered view meets both
    thresholds; and the product list comes from the full table, so a
    selectable product can have no recommendation under the thresholds (here
    the default ones, 0.3 and 1.2). *)
Theorem pipeline_respects_thresholds :
  (forall (R : DataFrame) (c l : Q) (i : string) (n : Z),
     Forall (fun r => (c <= confidence r)%Q /\ (l <= lift r)%Q)
            (recommendations (rules_filtered R c l) i n)) /\
  "bread" ∈ all_products [bread_jam] /\
  recommendations (rules_filtered [bread_jam] 0.3 1.2) "bread" 5 = [].
Proof.
  split; [apply pipeline_thresholds|]. split; [|reflexivity].
  vm_compute. left.
Qed.

(** ** Search *)


Lemma compile_in_fragment q :
  Re.in_fragment q = true -> exists re, Re.compile q = Some re.
Proof.
  unfold Re.in_fragment. induction q as [|c q IH]; simpl; [by eexists|].
  intros [[Hc Hd]%andb_true_iff Hq]%andb_true_iff.
  destruct (IH Hq) as (re & ->). rewrite Hc. simpl.
  destruct (Ascii.eqb c "."); simpl; [by eexists|].
  simpl in Hd. apply negb_true_iff in Hd. rewrite Hd. by eexists.
Qed.








Lemma search_view_empty df : search_view df "" = Some df.
Proof. done. Qed.








(** A query that differs from the rule text in letter case only. *)
Lemma search_ignores_case :
  occurs_ignoring_case "BREAD" "bread" /\
  search_view (display_df example_rules) "BREAD"
  = Some (display_df example_rules).
Proof. split; [by exists "", ""|reflexivity]. Qed.

(** ** Strings *)

Lemma string_app_cons x (a b : string) :
  String x a +:+ b = String x (a +:+ b).
Proof. reflexivity. Qed.

Lemma string_app_assoc (a b c : string) : (a +:+ b) +:+ c = a +:+ b +:+ c.
Proof.
  induction a as [|x a IH]; [done|].
  rewrite !string_app_cons. by f_equal.
Qed.

Lemma string_app_length (a b : string) :
  String.length (a +:+ b) = (String.length a + String.length b)%nat.
Proof.
  induction a as [|x a IH]; [done|].
  rewrite string_app_cons. simpl. by f_equal.
Qed.

Lemma all_digits_app (a b : string) :
  all_digits (a +:+ b) = all_digits a && all_digits b.
Proof.
  induction a as [|x a IH]; [done|].
  rewrite string_app_cons. simpl. rewrite <-andb_assoc. by f_equal.
Qed.

(** ** Fixed-point formatting *)

Lemma is_digit_pretty_N_char x : is_digit (pretty_N_char x) = true.
Proof. unfold pretty_N_char. by repeat case_match. Qed.

Lemma fixed_digits_digits k n : all_digits (fixed_digits k n) = true.
Proof.
  revert n. induction k as [|k IH]; intros n; simpl; [done|].
  rewrite all_digits_app, IH. simpl.
  by rewrite is_digit_pretty_N_char.
Qed.

Lemma fixed_digits_length k n : String.length (fixed_digits k n) = k.
Proof.
  revert n. induction k as [|k IH]; intros n; simpl; [done|].
  rewrite string_app_length, IH. simpl. lia.
Qed.

Lemma pretty_N_go_digits x s :
  all_digits s = true -> all_digits (pretty_N_go x s) = true.
Proof.
  revert s. induction (N.lt_wf_0 x) as [x _ IH]. intros s Hs.
  destruct (decide (x = 0)%N) as [->|Hx]; [done|].
  rewrite pretty_N_go_step by lia.
  apply IH; [apply N.div_lt; lia|].
  simpl. by rewrite is_digit_pretty_N_char.
Qed.

Lemma pretty_N_go_nonempty x s : s <> "" -> pretty_N_go x s <> "".
Proof.
  revert s. induction (N.lt_wf_0 x) as [x _ IH]. intros s Hs.
  destruct (decide (x = 0)%N) as [->|Hx]; [done|].
  rewrite pretty_N_go_step by lia.
  apply IH; [apply N.div_lt; lia|done].
Qed.

Lemma pretty_N_digits (x : N) : all_digits (pretty x) = true /\ pretty x <> "".
Proof.
  unfold pretty, pretty_N. case_decide; [done|]. split.
  - by apply pretty_N_go_digits.
  - rewrite pretty_N_go_step by lia. by apply pretty_N_go_nonempty.
Qed.

Lemma format_f_fixed_point prec x :
  prec <> 0%nat -> fixed_point prec (format_f prec x).
Proof.
  intros Hp. unfold format_f, fixed_point.
  destruct prec as [|p]; [done|].
  set (scale := 10 ^ Z.of_nat (S p)).
  set (n := round_half_even (Qabs x * inject_Z scale)).
  exists (if Qle_bool 0 x then "" else "-"),
         (pretty (Z.to_N (n / scale))), (fixed_digits (S p) (n mod scale)).
  destruct (pretty_N_digits (Z.to_N (n / scale))) as [Hd Hne].
  split; [done|]. split; [destruct (Qle_bool 0 x); auto|].
  split; [done|]. split; [done|].
  split; [apply fixed_digits_digits|apply fixed_digits_length].
Qed.

(** The integer printed is nearest to the value; at a tie it is even. *)
Lemma round_half_even_nearest (x : Q) :
  (Qabs (x - inject_Z (round_half_even x)) <= 1 # 2)%Q.
Proof.
  destruct x as [n d]. unfold round_half_even. simpl Qnum. simpl Qden.
  pose proof (Z.div_mod n (Z.pos d) ltac:(lia)) as Hdm.
  pose proof (Z.mod_pos_bound n (Z.pos d) ltac:(lia)) as Hb.
  assert (Hcase : forall k : Z,
    - Z.pos d <= 2 * (n - k * Z.pos d) <= Z.pos d ->
    (Qabs ((n # d) - inject_Z k) <= 1 # 2)%Q).
  { intros k Hk. apply Qabs_Qle_condition.
    unfold Qle, Qminus, Qplus, Qopp, inject_Z. simpl.
    rewrite Pos.mul_1_r. lia. }
  revert Hdm Hb.
  generalize (n / Z.pos d) as fl, (n mod Z.pos d) as r. intros fl r Hdm Hb.
  destruct (Z.compare_spec (2 * r) (Z.pos d)).
  - destruct (Z.even fl); apply Hcase; lia.
  - apply Hcase; lia.
  - apply Hcase; lia.
Qed.

(** ** CSV export *)

Lemma needs_quotes_app (a b : string) :
  Csv.needs_quotes (a +:+ b) = Csv.needs_quotes a || Csv.needs_quotes b.
Proof.
  induction a as [|x a IH]; [done|].
  rewrite string_app_cons. simpl. rewrite IH. by rewrite orb_assoc.
Qed.

Lemma is_digit_no_quotes c :
  is_digit c = true ->
  bool_decide (c ∈ [","%char; Csv.quotechar; Re.LF]) = false.
Proof. destruct c as [[] [] [] [] [] [] [] []]; by vm_compute. Qed.

Lemma all_digits_no_quotes s :
  all_digits s = true -> Csv.needs_quotes s = false.
Proof.
  induction s as [|c s IH]; simpl; [done|].
  intros [Hc Hs]%andb_true_iff.
  by rewrite (is_digit_no_quotes c Hc), (IH Hs).
Qed.

Lemma fixed_point_write_field prec s :
  fixed_point prec s -> Csv.write_field s = s.
Proof.
  intros (sign & ip & frac & -> & Hsign & _ & Hip & Hfrac & _).
  unfold Csv.write_field.
  rewrite !needs_quotes_app, (all_digits_no_quotes ip Hip),
    (all_digits_no_quotes frac Hfrac).
  by destruct Hsign as [-> | ->].
Qed.

Lemma display_df_fixed_point V row :
  row ∈ display_df V ->
  fixed_point 4 (Support row) /\ fixed_point 4 (Confidence row) /\
  fixed_point 2 (Lift row).
Proof.
  unfold display_df. intros (r & -> & _)%list_elem_of_fmap. simpl.
  repeat split; by apply format_f_fixed_point.
Qed.

Lemma writerow_cells V row :
  row ∈ display_df V -> Csv.writerow (Csv.cells row) = Csv.row_line row.
Proof.
  intros (Hs & Hc & Hl)%display_df_fixed_point.
  unfold Csv.writerow, Csv.cells, Csv.row_line.
  rewrite !fmap_cons. simpl String.concat.
  rewrite (fixed_point_write_field _ _ Hs), (fixed_point_write_field _ _ Hc),
    (fixed_point_write_field _ _ Hl).
  by rewrite !string_app_assoc.
Qed.

Lemma search_view_sublist df q out :
  search_view df q = Some out -> sublist out df.
Proof.
  unfold search_view. destruct q as [|c q]; [by intros [= <-]|].
  destruct (Re.compile (String c q)) as [re|]; [|done]. simpl.
  destruct (ascii_texts df); [|done].
  intros [= <-]. apply filter_sublist.
Qed.

(** What is exported is the text of a sub-sequence of the display table. *)
Lemma csv_searched V q out :
  csv V q = Some out ->
  exists df, sublist df (display_df V) /\ out = Csv.to_csv df.
Proof.
  unfold csv. destruct (search_view (display_df V) q) as [df|] eqn:Hdf; [|done].
  intros [= <-]. exists df. split; [|done]. by eapply search_view_sublist.
Qed.

Lemma to_csv_lines V df :
  sublist df (display_df V) ->
  Csv.to_csv df =
  Csv.writerow Csv.columns +:+ String.concat "" (Csv.row_line <$> df).
Proof.
  intros Hsub. unfold Csv.to_csv. do 2 f_equal.
  rewrite <-list_fmap_compose. apply Forall_fmap_ext, Forall_forall.
  intros row Hrow. simpl.
  eapply writerow_cells, elem_of_sublist; eauto.
Qed.

(** C5, amended: for every view [df] of the display table (the rows a search
    keeps, all of them when there is no search), the first line of the
    export is the header [Antecedente,Consecuente,Support,Confidence,Lift];
    after it comes one line per row of the view, in order; support and
    confidence are written with 4 decimals and lift with 2; and the export
    of the empty view is the header line alone. *)
Theorem csv_export_spec (V : DataFrame) (df : list display_row) :
  sublist df (display_df V) ->
  Csv.first_line (Csv.to_csv df)
  = "Antecedente,Consecuente,Support,Confidence,Lift" /\
  Csv.to_csv df
  = "Antecedente,Consecuente,Support,Confidence,Lift" +:+ String Re.LF "" +:+
    String.concat "" (Csv.row_line <$> df) /\
  Forall (fun row => fixed_point 4 (Support row) /\
                     fixed_point 4 (Confidence row) /\
                     fixed_point 2 (Lift row)) df /\
  Csv.to_csv []
  = "Antecedente,Consecuente,Support,Confidence,Lift" +:+ String Re.LF "" /\
  csv V "" = Some (Csv.to_csv (display_df V)).
Proof.
  intros Hdf. split; [reflexivity|]. split; [|split; [|done]].
  - by rewrite (to_csv_lines V df Hdf).
  - apply Forall_forall. intros row Hrow.
    eapply display_df_fixed_point, elem_of_sublist; eauto.
Qed.

Lemma csv_export_spec_witness :
  sublist (display_df [bread_butter]) (display_df [bread_butter; bread_jam]) /\
  Csv.first_line (Csv.to_csv (display_df [bread_butter]))
  = "Antecedente,Consecuente,Support,Confidence,Lift" /\
  Csv.to_csv (display_df [bread_butter])
  = "Antecedente,Consecuente,Support,Confidence,Lift" +:+ String Re.LF "" +:+
    String.concat "" (Csv.row_line <$> display_df [bread_butter]) /\
  Forall (fun row => fixed_point 4 (Support row) /\
                     fixed_point 4 (Confidence row) /\
                     fixed_point 2 (Lift row)) (display_df [bread_butter]) /\
  Csv.to_csv []
  = "Antecedente,Consecuente,Support,Confidence,Lift" +:+ String Re.LF "" /\
  csv [bread_butter; bread_jam] ""
  = Some (Csv.to_csv (display_df [bread_butter; bread_jam])).
Proof.
  assert (H : sublist (display_df [bread_butter])
                      (display_df [bread_butter; bread_jam]))
    by (vm_compute; repeat constructor).
  split; [exact H|].
  exact (csv_export_spec [bread_butter; bread_jam]
           (display_df [bread_butter]) H).
Defined.

(** The export of a search for BUTTER in the table [bread -> butter]. *)
Lemma csv_example : csv [bread_butter] "BUTTER" = Some example_csv.
Proof. reflexivity. Qed.

(** The header of the export of the empty view is not the English one. *)
Lemma csv_header_counterexample :
  csv [] "" = Some (Csv.to_csv []) /\
  Csv.first_line (Csv.to_csv [])
  <> "Antecedent,Consequent,Support,Confidence,Lift".
Proof. split; [reflexivity|]. vm_compute. discriminate. Qed.

(** ** Loading *)

(** A stored table with a record that breaks the invariants is loaded as it
    is and the main page is shown: there is no load failure. *)
Lemma load_model_malformed_counterexample :
  ~ rule_invariants malformed_rule /\
  Load.load_model (Load.Pickled [malformed_rule])
  = inr (Some [malformed_rule], []) /\
  Load.startup (Load.Pickled [malformed_rule])
  = inr (Load.MainPage [malformed_rule]).
Proof. split; [|done]. by intros (H & _). Qed.

(** C4, amended: a stored table is returned as it is, whatever its records,
    and the main page is shown; when the file is absent [load_model] raises
    nothing, shows the two not-found messages and returns [None], and the
    page without a model is shown. *)
Theorem load_model_spec (rules : DataFrame) :
  Load.load_model (Load.Pickled rules) = inr (Some rules, []) /\
  Load.startup (Load.Pickled rules) = inr (Load.MainPage rules) /\
  Load.load_model Load.Absent
  = inr (None, [Load.st_error Load.not_found_error;
                Load.st_info Load.not_found_info]) /\
  Load.startup Load.Absent
  = inr (Load.NoModelPage [Load.st_error Load.not_found_error;
                           Load.st_info Load.not_found_info;
                           Load.st_error Load.no_model_error]).
Proof. by repeat split. Qed.

(** ** Metrics *)

(** C6: on an empty table the count is 0 and every mean and maximum is the
    no-data value [nan], shown as [nan] (as [nan%] for a percentage);
    nothing is raised and nothing is divided. *)
Theorem metrics_of_empty_view (R : DataFrame) :
  Series_mean [] = nan /\ Series_max [] = nan /\
  sidebar_metrics [] =
    {| total_de_reglas := 0; support_promedio := "nan";
       confidence_promedio := "nan"; lift_promedio := "nan" |} /\
  tab3_metrics R [] =
    {| total_reglas := 0;
       total_reglas_delta := pretty (- Z.of_nat (length R)) +:+ " del total";
       lift_maximo := "nan"; confidence_maximo := "nan%" |}.
Proof. repeat split. Qed.

(** * Further properties *)

(** ** Composing threshold filters *)

Lemma filter_filter_andb {A} (f g : A -> bool) (l : list A) :
  List.filter f (List.filter g l) = List.filter (fun x => g x && f x) l.
Proof.
  induction l as [|x l IH]; simpl; [done|].
  destruct (g x) eqn:E; simpl; [|done].
  destruct (f x); by rewrite IH.
Qed.

Lemma threshold_mask_max c l c' l' r :
  threshold_mask c l r && threshold_mask c' l' r
  = threshold_mask (Qmax c c') (Qmax l l') r.
Proof.
  apply eq_true_iff_eq.
  rewrite andb_true_iff, !threshold_mask_true, !Q.max_lub_iff. tauto.
Qed.

(** Filtering a filtered view again is filtering the table once, with the
    larger of the two confidence thresholds and the larger of the two lift
    thresholds. *)
Theorem rules_filtered_compose (R : DataFrame) (c l c' l' : Q) :
  rules_filtered (rules_filtered R c l) c' l'
  = rules_filtered R (Qmax c c') (Qmax l l').
Proof.
  unfold rules_filtered. rewrite filter_filter_andb.
  apply filter_ext. intros r. apply threshold_mask_max.
Qed.

(** The filtered view never has more rows than the table, and it is the
    whole table exactly when every rule reaches both thresholds. *)
Theorem rules_filtered_all (R : DataFrame) (c l : Q) :
  (length (rules_filtered R c l) <= length R)%nat /\
  (rules_filtered R c l = R <->
   Forall (fun r => (c <= confidence r)%Q /\ (l <= lift r)%Q) R).
Proof.
  split; [apply filter_length_le|]. unfold rules_filtered.
  induction R as [|r R IH]; simpl; [by split|].
  destruct (threshold_mask c l r) eqn:E.
  - apply threshold_mask_true in E. split.
    + intros [= H]. constructor; [done|]. by apply IH.
    + intros H. inversion H; subst. f_equal. by apply IH.
  - split.
    + intros H. exfalso.
      pose proof (filter_length_le (threshold_mask c l) R) as Hlen.
      rewrite H in Hlen. simpl in Hlen. lia.
    + intros H. inversion H as [|? ? Hr _]; subst.
      apply threshold_mask_true in Hr. congruence.
Qed.

(** ** The product list *)

Lemma elem_of_all_products R x :
  x ∈ all_products R <-> exists r, r ∈ R /\ x ∈ antecedents r.
Proof.
  unfold all_products. rewrite merge_sort_Permutation, elem_of_elements.
  rewrite elem_of_union_antecedents. split.
  - intros [Hx|(it & Hit & Hx)]; [set_solver|].
    apply list_elem_of_fmap in Hit as (r & -> & Hr). by exists r.
  - intros (r & Hr & Hx). right. exists (antecedents r).
    split; [|done]. apply list_elem_of_fmap. by exists r.
Qed.

(** The product list depends on the set of antecedent items alone, not on
    the order of the rows nor on the order in which a set is iterated. *)
Theorem all_products_items (R1 R2 : DataFrame) :
  (forall x, (exists r, r ∈ R1 /\ x ∈ antecedents r) <->
             (exists r, r ∈ R2 /\ x ∈ antecedents r)) ->
  all_products R1 = all_products R2.
Proof.
  intros H. unfold all_products. do 2 f_equal.
  apply set_eq. intros x. rewrite !elem_of_union_antecedents.
  assert (Hfm : forall R : DataFrame, (exists itemset, itemset ∈ antecedents <$> R /\ x ∈ itemset)
                          <-> exists r, r ∈ R /\ x ∈ antecedents r).
  { intros R. split.
    - intros (it & (r & -> & Hr)%list_elem_of_fmap & Hx). by exists r.
    - intros (r & Hr & Hx). exists (antecedents r). split; [|done].
      apply list_elem_of_fmap. by exists r. }
  rewrite !Hfm, H. done.
Qed.

Lemma all_products_items_witness :
  (forall x, (exists r, r ∈ [bread_butter; milk_bread] /\ x ∈ antecedents r) <->
             (exists r, r ∈ [milk_bread; bread_jam] /\ x ∈ antecedents r)) /\
  all_products [bread_butter; milk_bread] = all_products [milk_bread; bread_jam].
Proof.
  assert (H : forall x,
    (exists r, r ∈ [bread_butter; milk_bread] /\ x ∈ antecedents r) <->
    (exists r, r ∈ [milk_bread; bread_jam] /\ x ∈ antecedents r)).
  { intros x. split; intros (r & Hr & Hx).
    - apply elem_of_cons in Hr as [->|Hr].
      + exists bread_jam. split; [by right; left|done].
      + apply list_elem_of_singleton in Hr as ->.
        exists milk_bread. split; [by left|done].
    - apply elem_of_cons in Hr as [->|Hr].
      + exists milk_bread. split; [by right; left|done].
      + apply list_elem_of_singleton in Hr as ->.
        exists bread_butter. split; [by left|done]. }
  split; [exact H|].
  exact (all_products_items [bread_butter; milk_bread] [milk_bread; bread_jam] H).
Defined.

(** Every product that gets a recommendation from a filtered view is in the
    product list, which is built from the full table. *)
Theorem recommended_product_selectable (R : DataFrame) (c l : Q)
    (i : string) (n : Z) :
  recommendations (rules_filtered R c l) i n <> [] -> i ∈ all_products R.
Proof.
  destruct (recommendations (rules_filtered R c l) i n) as [|r rs] eqn:E;
    [done|intros _].
  assert (Hr : r ∈ recommendations (rules_filtered R c l) i n)
    by (rewrite E; left).
  apply recommendations_elem_of in Hr as [Hr Hi].
  apply elem_of_all_products. exists r. split; [|done].
  apply list_elem_of_In. apply list_elem_of_In in Hr.
  unfold rules_filtered in Hr. by apply filter_In in Hr as [? _].
Qed.

Lemma recommended_product_selectable_witness :
  recommendations (rules_filtered example_rules 0.3 1.2) "bread" 5 <> [] /\
  "bread" ∈ all_products example_rules.
Proof.
  assert (H : recommendations (rules_filtered example_rules 0.3 1.2) "bread" 5
              <> []) by (vm_compute; discriminate).
  split; [exact H|].
  exact (recommended_product_selectable example_rules 0.3 1.2 "bread" 5 H).
Defined.

(** ** The top of the matching rules *)

(** With [n >= 0] the recommendations are exactly [min n m] of the [m]
    matching rules, and no matching rule left out has a larger lift than a
    recommended one. *)
Theorem recommendations_top (R : DataFrame) (i : string) (n : Z) :
  0 <= n ->
  Z.of_nat (length (recommendations R i n))
  = Z.min n (Z.of_nat (length (matching_rules R i))) /\
  exists rest,
    recommendations R i n ++ rest ≡ₚ matching_rules R i /\
    forall a b, a ∈ recommendations R i n -> b ∈ rest ->
                (lift b <= lift a)%Q.
Proof.
  intros Hn. rewrite recommendations_nlargest, nlargest_length.
  split; [lia|]. apply nlargest_top.
Qed.

Lemma recommendations_top_witness :
  0 <= 1 /\
  Z.of_nat (length (recommendations example_rules "bread" 1))
  = Z.min 1 (Z.of_nat (length (matching_rules example_rules "bread"))) /\
  exists rest,
    recommendations example_rules "bread" 1 ++ rest
    ≡ₚ matching_rules example_rules "bread" /\
    forall a b, a ∈ recommendations example_rules "bread" 1 -> b ∈ rest ->
                (lift b <= lift a)%Q.
Proof.
  split; [lia|]. apply (recommendations_top example_rules "bread" 1). lia.
Defined.

Lemma matching_rules_nil R i :
  matching_rules R i = [] <-> forall r, r ∈ R -> i ∉ antecedents r.
Proof.
  unfold matching_rules. induction R as [|r R IH]; simpl.
  - split; [|done]. intros _ r Hr. inversion Hr.
  - unfold has_antecedent at 1. case_bool_decide as Hi.
    + split; [done|]. intros H. by destruct (H r); [left|].
    + rewrite IH. split.
      * intros H r' [->|Hr']%elem_of_cons; auto.
      * intros H r' Hr'. apply H. by right.
Qed.

(** With [top_n >= 1] there is no recommendation exactly when no rule of the
    view has the product in its antecedent. *)
Theorem recommendations_none (R : DataFrame) (i : string) (n : Z) :
  1 <= n ->
  (recommendations R i n = [] <-> forall r, r ∈ R -> i ∉ antecedents r).
Proof.
  intros Hn. rewrite <-matching_rules_nil.
  rewrite recommendations_nlargest. split.
  - intros H. apply (f_equal length) in H.
    rewrite nlargest_length in H. simpl in H.
    destruct (matching_rules R i); [done|]. simpl in H. lia.
  - intros ->. unfold nlargest. simpl. by rewrite take_nil.
Qed.

Lemma recommendations_none_witness :
  1 <= 5 /\
  (recommendations example_rules "tea" 5 = [] <->
   forall r, r ∈ example_rules -> "tea" ∉ antecedents r).
Proof.
  split; [lia|]. apply (recommendations_none example_rules "tea" 5). lia.
Defined.

(** ** Showing the recommendations *)

Lemma show_card_ok row :
  consequents row <> [] -> exists w, show_card row = inr w.
Proof.
  unfold show_card. destruct (consequents row); [done|]. intros _. by eexists.
Qed.

Lemma show_card_error row e :
  show_card row = inl e <-> consequents row = [] /\ e = IndexError.
Proof.
  unfold show_card. destruct (consequents row); simpl.
  - split; [by intros [= <-]|by intros [_ ->]].
  - split; [done|by intros [? _]].
Qed.

Lemma show_cards_no_error rows :
  (show_cards rows).2 = None <-> Forall (fun r => consequents r <> []) rows.
Proof.
  induction rows as [|row rows IH]; simpl; [by split|].
  destruct (show_card row) as [e|w] eqn:E.
  - apply show_card_error in E as [E _]. split; [done|].
    intros H. inversion H; subst. done.
  - destruct (show_cards rows) as [ws e]. simpl in *. rewrite IH.
    split.
    + intros H. constructor; [|done]. intros Hc.
      assert (show_card row = inl IndexError) by by apply show_card_error.
      congruence.
    + intros H. by inversion H.
Qed.

Lemma show_cards_all rows :
  Forall (fun r => consequents r <> []) rows ->
  exists cards, show_cards rows = (cards, None) /\
                Forall2 (fun w r => show_card r = inr w) cards rows.
Proof.
  induction 1 as [|row rows Hrow _ (cards & IH1 & IH2)]; simpl.
  - exists []. split; [done|constructor].
  - destruct (show_card_ok row Hrow) as (w & Hw). rewrite Hw, IH1.
    exists (w :: cards). split; [done|by constructor].
Qed.

(** The cards drawn before an exception are those of the rules before the
    first one without a consequent. *)
Lemma show_cards_drawn rows :
  exists shown, shown `prefix_of` rows /\
    Forall2 (fun w r => show_card r = inr w) (show_cards rows).1 shown /\
    ((show_cards rows).2 = None -> shown = rows).
Proof.
  induction rows as [|row rows (shown & Hp & Hs & Hn)]; simpl.
  - exists []. split; [done|]. split; [constructor|done].
  - destruct (show_card row) as [e|w] eqn:E; simpl.
    + exists []. split; [apply prefix_nil|]. split; [constructor|done].
    + destruct (show_cards rows) as [ws e]. simpl in *.
      exists (row :: shown). split; [by apply prefix_cons|].
      split; [by constructor|]. intros He. f_equal. by apply Hn.
Qed.

(** The handler stops with an exception exactly when one of the recommended
    rules has an empty consequent set; nothing else can stop it. *)
Theorem buscar_recomendaciones_error (V : DataFrame) (i : string) (n : Z) :
  (buscar_recomendaciones V i n).2 = None <->
  Forall (fun r => consequents r <> []) (recommendations V i n).
Proof.
  unfold buscar_recomendaciones, recommendations.
  destruct (0 <? Z.of_nat (length (matching_rules V i))) eqn:E.
  - rewrite <-show_cards_no_error.
    by destruct (show_cards (nlargest n lift (matching_rules V i))).
  - simpl. split; [|done]. intros _.
    destruct (matching_rules V i); [constructor|done].
Qed.

(** When every rule of the view has a consequent and some rule matches the
    product, the handler announces the number of recommendations, which is
    [min top_n m] for [m] matching rules, and then draws one card per
    recommended rule, in order, without an exception. *)
Theorem buscar_recomendaciones_cards (V : DataFrame) (i : string) (n : Z) :
  1 <= n ->
  Forall (fun r => consequents r <> []) V ->
  (exists r, r ∈ V /\ i ∈ antecedents r) ->
  exists cards,
    buscar_recomendaciones V i n
    = (st_success ("✅ Se encontraron " +:+
                   pretty (Z.min n (Z.of_nat (length (matching_rules V i)))) +:+
                   " recomendaciones") :: cards, None) /\
    Forall2 (fun w r => show_card r = inr w) cards (recommendations V i n).
Proof.
  intros Hn HV (r & Hr & Hi).
  assert (Hm : matching_rules V i <> []).
  { intros Hnil. by eapply matching_rules_nil in Hnil. }
  assert (Hrecs : Forall (fun r => consequents r <> [])
                         (nlargest n lift (matching_rules V i))).
  { apply Forall_forall. intros r' Hr'%nlargest_elem_of.
    unfold matching_rules in Hr'.
    apply list_elem_of_In, filter_In in Hr' as [Hr' _].
    rewrite Forall_forall in HV. by apply HV, list_elem_of_In. }
  destruct (show_cards_all _ Hrecs) as (cards & Hc1 & Hc2).
  exists cards. rewrite recommendations_nlargest. split; [|done].
  unfold buscar_recomendaciones.
  destruct (matching_rules V i) as [|r0 rs] eqn:E; [done|].
  rewrite <-E in *. 
  replace (0 <? Z.of_nat (length (matching_rules V i))) with true
    by (rewrite E; done).
  rewrite Hc1, nlargest_length.
  replace (Z.of_nat (Z.to_nat n `min` length (matching_rules V i)))
    with (Z.min n (Z.of_nat (length (matching_rules V i)))) by lia.
  done.
Qed.

Lemma buscar_recomendaciones_cards_witness :
  1 <= 5 /\
  Forall (fun r => consequents r <> []) example_rules /\
  (exists r, r ∈ example_rules /\ "bread" ∈ antecedents r) /\
  exists cards,
    buscar_recomendaciones example_rules "bread" 5
    = (st_success ("✅ Se encontraron " +:+
                   pretty (Z.min 5 (Z.of_nat
                             (length (matching_rules example_rules "bread")))) +:+
                   " recomendaciones") :: cards, None) /\
    Forall2 (fun w r => show_card r = inr w) cards
            (recommendations example_rules "bread" 5).
Proof.
  assert (H1 : Forall (fun r => consequents r <> []) example_rules)
    by (repeat constructor; discriminate).
  assert (H2 : exists r, r ∈ example_rules /\ "bread" ∈ antecedents r)
    by (exists bread_butter; split; left).
  split; [lia|]. split; [exact H1|]. split; [exact H2|].
  exact (buscar_recomendaciones_cards example_rules "bread" 5
           ltac:(lia) H1 H2).
Defined.

(** Without a matching rule the handler shows the warning that names the
    product and the hint, and nothing else. *)
Theorem buscar_recomendaciones_none (V : DataFrame) (i : string) (n : Z) :
  (forall r, r ∈ V -> i ∉ antecedents r) ->
  buscar_recomendaciones V i n
  = ([st_warning ("⚠️ No se encontraron recomendaciones para: **" +:+ i +:+ "**");
      st_info "Intenta ajustar los filtros en el sidebar o selecciona otro producto."],
     None).
Proof.
  intros H%matching_rules_nil. unfold buscar_recomendaciones. by rewrite H.
Qed.

Lemma buscar_recomendaciones_none_witness :
  (forall r, r ∈ [milk_bread] -> "tea" ∉ antecedents r) /\
  buscar_recomendaciones [milk_bread] "tea" 5
  = ([st_warning ("⚠️ No se encontraron recomendaciones para: **" +:+ "tea" +:+ "**");
      st_info "Intenta ajustar los filtros en el sidebar o selecciona otro producto."],
     None).
Proof.
  assert (H : forall r, r ∈ [milk_bread] -> "tea" ∉ antecedents r).
  { intros r ->%list_elem_of_singleton [=]%list_elem_of_singleton. }
  split; [exact H|].
  exact (buscar_recomendaciones_none [milk_bread] "tea" 5 H).
Defined.

(** The success message counts all the recommendations before the loop
    starts; the cards drawn after it are those of an initial segment of the
    recommendations, the whole of it when no exception stops the loop. *)
Theorem buscar_recomendaciones_drawn (V : DataFrame) (i : string) (n : Z) :
  matching_rules V i <> [] ->
  exists cards shown,
    (buscar_recomendaciones V i n).1
    = st_success ("✅ Se encontraron " +:+
                  pretty (Z.of_nat (length (recommendations V i n))) +:+
                  " recomendaciones") :: cards /\
    shown `prefix_of` recommendations V i n /\
    Forall2 (fun w r => show_card r = inr w) cards shown /\
    ((buscar_recomendaciones V i n).2 = None -> shown = recommendations V i n).
Proof.
  intros Hm. rewrite recommendations_nlargest.
  unfold buscar_recomendaciones.
  destruct (matching_rules V i) as [|r0 rs] eqn:E; [done|]. rewrite <-E.
  replace (0 <? Z.of_nat (length (matching_rules V i))) with true
    by (rewrite E; done).
  destruct (show_cards_drawn (nlargest n lift (matching_rules V i)))
    as (shown & Hp & Hs & Hn).
  destruct (show_cards (nlargest n lift (matching_rules V i))) as [ws e].
  simpl in *. by exists ws, shown.
Qed.

Lemma buscar_recomendaciones_drawn_witness :
  matching_rules example_rules "bread" <> [] /\
  exists cards shown,
    (buscar_recomendaciones example_rules "bread" 5).1
    = st_success ("✅ Se encontraron " +:+
                  pretty (Z.of_nat
                            (length (recommendations example_rules "bread" 5))) +:+
                  " recomendaciones") :: cards /\
    shown `prefix_of` recommendations example_rules "bread" 5 /\
    Forall2 (fun w r => show_card r = inr w) cards shown /\
    ((buscar_recomendaciones example_rules "bread" 5).2 = None ->
     shown = recommendations example_rules "bread" 5).
Proof.
  assert (H : matching_rules example_rules "bread" <> [])
    by (vm_compute; discriminate).
  split; [exact H|].
  exact (buscar_recomendaciones_drawn example_rules "bread" 5 H).
Defined.

(** ** Top 10 rules *)

Lemma char_count_app a b :
  char_count (a +:+ b) = (char_count a + char_count b)%nat.
Proof.
  induction a as [|c a IH]; [done|].
  rewrite string_app_cons. simpl. rewrite IH. lia.
Qed.

(** [s[:n]] has at most [n] characters and is the start of [s]. *)
Lemma take_chars_count n s :
  (char_count (take_chars n s) <= n)%nat /\
  exists rest, s = take_chars n s +:+ rest.
Proof.
  revert n. induction s as [|c s IH]; intros n; simpl.
  - split; [lia|by exists ""].
  - destruct (continuation c) eqn:E.
    + destruct (IH n) as (Hn & rest & Hrest). simpl. rewrite E. split; [lia|].
      exists rest. rewrite string_app_cons. by f_equal.
    + destruct n as [|n]; [split; [simpl; lia|by eexists]|].
      destruct (IH n) as (Hn & rest & Hrest). simpl. rewrite E. split; [lia|].
      exists rest. rewrite string_app_cons. by f_equal.
Qed.

(** A text shorter than the cut is kept whole. *)
Lemma take_chars_all n s : (char_count s <= n)%nat -> take_chars n s = s.
Proof.
  revert n. induction s as [|c s IH]; intros n; simpl; [done|].
  destruct (continuation c); intros Hn.
  - f_equal. apply IH. lia.
  - destruct n as [|n]; [lia|]. f_equal. apply IH. lia.
Qed.

Lemma regla_ok a c :
  a <> [] -> c <> [] ->
  exists label, regla a c = inr label /\ (char_count label <= 63)%nat.
Proof.
  destruct a as [|a0 a]; [done|]. destruct c as [|c0 c]; [done|].
  intros _ _. eexists. split; [reflexivity|].
  rewrite !char_count_app.
  destruct (take_chars_count 30 a0) as [Ha _].
  destruct (take_chars_count 30 c0) as [Hc _].
  change (char_count " → ") with 3%nat. lia.
Qed.

Lemma regla_error a c e :
  regla a c = inl e <-> (a = [] \/ c = []) /\ e = IndexError.
Proof.
  unfold regla. destruct a as [|a0 a], c as [|c0 c]; simpl;
    (split; [intros [= <-]; auto|intros [H ->]; try done]);
    by destruct H.
Qed.

Lemma reglas_ok rows :
  Forall (fun r => antecedents r <> [] /\ consequents r <> []) rows ->
  exists labels, reglas rows = inr labels /\
    length labels = length rows /\
    Forall (fun label => (char_count label <= 63)%nat) labels.
Proof.
  induction 1 as [|row rows [Ha Hc] _ (labels & IH1 & IH2 & IH3)]; simpl.
  - by exists [].
  - destruct (regla_ok _ _ Ha Hc) as (label & -> & Hl). rewrite IH1.
    exists (label :: labels). split; [done|]. split; [simpl; lia|].
    by constructor.
Qed.

Lemma reglas_error rows e :
  reglas rows = inl e <->
  (exists r, r ∈ rows /\ (antecedents r = [] \/ consequents r = [])) /\
  e = IndexError.
Proof.
  destruct e. induction rows as [|row rows IH]; simpl.
  - split; [done|]. intros [(r & Hr & _) _]. inversion Hr.
  - destruct (regla (antecedents row) (consequents row)) as [[]|label] eqn:E.
    + apply regla_error in E as [E _]. split; [|done].
      intros _. split; [|done]. exists row. split; [left|done].
    + destruct (reglas rows) as [[]|labels].
      * split; [|done]. intros _. split; [|done].
        destruct (proj1 IH eq_refl) as [(r & Hr & H) _].
        exists r. split; [by right|done].
      * split; [done|]. intros [(r & Hr & H) _].
        apply elem_of_cons in Hr as [->|Hr].
        -- assert (regla (antecedents row) (consequents row) = inl IndexError)
             by by apply regla_error.
           congruence.
        -- assert (@inr lookup_error _ labels = inl IndexError); [|done].
           apply IH. split; [|done]. by exists r.
Qed.

(** Building the top-10 table raises [IndexError] exactly when one of the
    (at most ten) rules of largest lift has an empty antecedent or an empty
    consequent. *)
Theorem top_10_display_error (V : DataFrame) (e : lookup_error) :
  top_10_display V = inl e <->
  (exists r, r ∈ top_10 V /\ (antecedents r = [] \/ consequents r = [])) /\
  e = IndexError.
Proof.
  unfold top_10_display. rewrite <-reglas_error.
  destruct (reglas (top_10 V)); split; congruence.
Qed.

(** When every rule of the view has an antecedent and a consequent, the
    top-10 table is built without an exception; it has [min 10 m] rows for a
    view of [m] rules, their lifts are those of the rules of largest lift in
    descending order, and no label has more than 63 characters (30 and 30
    around the arrow and its two spaces). *)
Theorem top_10_display_ok (V : DataFrame) :
  Forall (fun r => antecedents r <> [] /\ consequents r <> []) V ->
  exists rows,
    top_10_display V = inr rows /\
    length rows = Nat.min 10 (length V) /\
    top_Lift <$> rows = lift <$> top_10 V /\
    top_Confidence <$> rows = confidence <$> top_10 V /\
    StronglySorted (desc top_Lift) rows /\
    Forall (fun row => (char_count (Regla row) <= 63)%nat) rows.
Proof.
  intros HV.
  assert (Htop : Forall (fun r => antecedents r <> [] /\ consequents r <> [])
                        (top_10 V)).
  { apply Forall_forall. intros r Hr%nlargest_elem_of.
    rewrite Forall_forall in HV. by apply HV. }
  destruct (reglas_ok _ Htop) as (labels & Hl1 & Hl2 & Hl3).
  unfold top_10_display. rewrite Hl1. eexists. split; [reflexivity|].
  assert (Hlen : length (top_10 V) = Nat.min 10 (length V)).
  { unfold top_10. by rewrite nlargest_length. }
  assert (HL : top_Lift <$> zip_with
                 (fun label row => {| Regla := label; top_Lift := lift row;
                                      top_Confidence := confidence row |})
                 labels (top_10 V) = lift <$> top_10 V).
  { revert Hl2. generalize (top_10 V). clear.
    induction labels as [|a l IH]; intros [|b k] Hlen; simpl in *; try done.
    f_equal. apply IH. lia. }
  assert (HC : top_Confidence <$> zip_with
                 (fun label row => {| Regla := label; top_Lift := lift row;
                                      top_Confidence := confidence row |})
                 labels (top_10 V) = confidence <$> top_10 V).
  { revert Hl2. generalize (top_10 V). clear.
    induction labels as [|a l IH]; intros [|b k] Hlen; simpl in *; try done.
    f_equal. apply IH. lia. }
  split; [by rewrite length_zip_with, Hl2, Hlen, Nat.min_id|].
  split; [done|]. split; [done|]. split.
  - pose proof (nlargest_sorted lift 10 V) as Hs. fold (top_10 V) in Hs.
    revert Hl2 Hs. generalize (top_10 V). clear.
    induction labels as [|a l IH]; intros [|b k] Hlen Hs; simpl in *;
      try done; [constructor|].
    inversion Hs as [|? ? Hk Hb]; subst. constructor; [apply IH; [lia|done]|].
    apply Forall_forall. intros row Hrow.
    apply elem_of_zip_with in Hrow as (label & r & -> & _ & Hr).
    unfold desc. simpl. rewrite Forall_forall in Hb. by apply Hb.
  - apply Forall_forall. intros row Hrow.
    apply elem_of_zip_with in Hrow as (label & r & -> & Hlabel & _).
    simpl. rewrite Forall_forall in Hl3. by apply Hl3.
Qed.

Lemma top_10_display_ok_witness :
  Forall (fun r => antecedents r <> [] /\ consequents r <> []) example_rules /\
  exists rows,
    top_10_display example_rules = inr rows /\
    length rows = Nat.min 10 (length example_rules) /\
    top_Lift <$> rows = lift <$> top_10 example_rules /\
    top_Confidence <$> rows = confidence <$> top_10 example_rules /\
    StronglySorted (desc top_Lift) rows /\
    Forall (fun row => (char_count (Regla row) <= 63)%nat) rows.
Proof.
  assert (H : Forall (fun r => antecedents r <> [] /\ consequents r <> [])
                     example_rules)
    by (repeat constructor; discriminate).
  split; [exact H|]. exact (top_10_display_ok example_rules H).
Defined.

(** ** Means and maxima *)

Lemma foldl_Qmax_spec (x : Q) (col : list Q) :
  (foldl Qmax x col = x \/ foldl Qmax x col ∈ col) /\
  (x <= foldl Qmax x col)%Q /\
  forall y, y ∈ col -> (y <= foldl Qmax x col)%Q.
Proof.
  revert x. induction col as [|z col IH]; intros x; simpl.
  - split; [by left|]. split; [apply Qle_refl|]. intros y Hy. inversion Hy.
  - destruct (IH (Qmax x z)) as (Hin & Hle & Hub).
    split; [|split].
    + destruct Hin as [Hin|Hin]; [|by right; right].
      rewrite Hin. unfold Qmax, GenericMinMax.gmax.
      destruct (x ?= z)%Q; [by left|by right; left|by left].
    + eapply Qle_trans; [apply Q.le_max_l|exact Hle].
    + intros y [->|Hy]%elem_of_cons; [|by apply Hub].
      eapply Qle_trans; [apply Q.le_max_r|exact Hle].
Qed.

(** On a non-empty column [max] is a number, one of the entries, and no
    entry is larger. *)
Theorem Series_max_spec (col : list Q) :
  col <> [] ->
  exists m, Series_max col = finite m /\ m ∈ col /\
            forall y, y ∈ col -> (y <= m)%Q.
Proof.
  destruct col as [|x col]; [done|intros _]. simpl.
  destruct (foldl_Qmax_spec x col) as (Hin & Hle & Hub).
  eexists. split; [reflexivity|]. split.
  - destruct Hin as [-> |Hin]; [by left|by right].
  - intros y [->|Hy]%elem_of_cons; [done|by apply Hub].
Qed.

Lemma Series_max_spec_witness :
  [0.60; 0.40; 0.55]%Q <> [] /\
  exists m, Series_max [0.60; 0.40; 0.55]%Q = finite m /\
            m ∈ [0.60; 0.40; 0.55]%Q /\
            forall y, y ∈ [0.60; 0.40; 0.55]%Q -> (y <= m)%Q.
Proof.
  split; [discriminate|].
  apply (Series_max_spec [0.60; 0.40; 0.55]%Q). discriminate.
Defined.

(** The largest lift of a non-empty view is the lift of the first row of its
    top-10 table. *)
Theorem lift_maximo_top_10 (V : DataFrame) :
  V <> [] ->
  exists r0 rest m,
    top_10 V = r0 :: rest /\
    Series_max (lift <$> V) = finite m /\ (m == lift r0)%Q.
Proof.
  intros HV.
  destruct (Series_max_spec (lift <$> V)) as (m & Hm & Hin & Hub).
  { by destruct V. }
  destruct (top_10 V) as [|r0 rest] eqn:E.
  { apply (f_equal length) in E. unfold top_10 in E.
    rewrite nlargest_length in E. destruct V; [done|simpl in E; lia]. }
  exists r0, rest, m. split; [done|]. split; [done|].
  assert (Hr0 : r0 ∈ V).
  { apply (nlargest_elem_of lift 10). fold (top_10 V). rewrite E. left. }
  apply Qle_antisym.
  - apply list_elem_of_fmap in Hin as (r & -> & Hr).
    destruct (nlargest_top lift 10 V) as (others & Hperm & Htop).
    fold (top_10 V) in Hperm, Htop. rewrite E in *.
    pose proof (nlargest_sorted lift 10 V) as Hs. fold (top_10 V) in Hs.
    rewrite E in Hs. inversion Hs as [|? ? _ Hhd]; subst.
    rewrite <-Hperm in Hr.
    apply elem_of_app in Hr as [[->|Hr]%elem_of_cons|Hr].
    + apply Qle_refl.
    + rewrite Forall_forall in Hhd. by apply Hhd.
    + apply (Htop r0 r); [left|done].
  - apply Hub, list_elem_of_fmap. by exists r0.
Qed.

Lemma lift_maximo_top_10_witness :
  example_rules <> [] /\
  exists r0 rest m,
    top_10 example_rules = r0 :: rest /\
    Series_max (lift <$> example_rules) = finite m /\ (m == lift r0)%Q.
Proof.
  split; [discriminate|]. apply (lift_maximo_top_10 example_rules).
  discriminate.
Defined.

(** ** The value of a formatted number *)

Lemma digits_value_from_app a s t :
  digits_value_from a (s +:+ t) = digits_value_from (digits_value_from a s) t.
Proof.
  revert a. induction s as [|c s IH]; intros a; [done|].
  rewrite string_app_cons. simpl. apply IH.
Qed.

Lemma pretty_N_char_value x :
  (x < 10)%N -> Z.of_N (N_of_ascii (pretty_N_char x)) - 48 = Z.of_N x.
Proof.
  intros Hx.
  assert (x = 0 \/ x = 1 \/ x = 2 \/ x = 3 \/ x = 4 \/ x = 5 \/ x = 6 \/
          x = 7 \/ x = 8 \/ x = 9)%N as H by lia.
  repeat (destruct H as [->|H]; [done|]). by subst.
Qed.

Lemma pretty_N_go_value x s :
  exists d, pretty_N_go x s = d +:+ s /\
    forall a, digits_value_from a d
              = a * 10 ^ Z.of_nat (String.length d) + Z.of_N x.
Proof.
  revert s. induction (N.lt_wf_0 x) as [x _ IH]. intros s.
  destruct (decide (x = 0)%N) as [->|Hx].
  - exists "". split; [done|]. intros a. simpl. lia.
  - rewrite pretty_N_go_step by lia.
    destruct (IH (x `div` 10)%N ltac:(apply N.div_lt; lia)
                 (String (pretty_N_char (x `mod` 10)) s)) as (d & Hd & Hv).
    exists (d +:+ String (pretty_N_char (x `mod` 10)) "").
    split; [by rewrite Hd, string_app_assoc|].
    intros a. rewrite digits_value_from_app, Hv. simpl.
    rewrite pretty_N_char_value by (apply N.mod_lt; lia).
    rewrite string_app_length. simpl String.length.
    rewrite Nat2Z.inj_add, Z.pow_add_r by lia.
    rewrite N2Z.inj_div, N2Z.inj_mod.
    pose proof (Z.div_mod (Z.of_N x) 10 ltac:(lia)). simpl Z.of_N. lia.
Qed.

Lemma pretty_N_value (x : N) : digits_value (pretty x) = Z.of_N x.
Proof.
  unfold pretty, pretty_N. case_decide as Hx; [by subst|].
  destruct (pretty_N_go_value x "") as (d & Hd & Hv).
  rewrite Hd. unfold digits_value. rewrite digits_value_from_app, Hv.
  simpl. lia.
Qed.

Lemma fixed_digits_value k n a :
  digits_value_from a (fixed_digits k n)
  = a * 10 ^ Z.of_nat k + n mod 10 ^ Z.of_nat k.
Proof.
  revert n a. induction k as [|k IH]; intros n a.
  - simpl. rewrite Z.mod_1_r. lia.
  - simpl fixed_digits. rewrite digits_value_from_app, IH. simpl.
    assert (H10 : 0 <= n mod 10 < 10) by (apply Z.mod_pos_bound; lia).
    rewrite pretty_N_char_value by lia. rewrite Z2N.id by lia.
    rewrite Nat2Z.inj_succ, Z.pow_succ_r by lia.
    rewrite (Z.rem_mul_r n 10 (10 ^ Z.of_nat k)) by lia. lia.
Qed.

Lemma round_half_even_nonneg x : (0 <= x)%Q -> 0 <= round_half_even x.
Proof.
  destruct x as [n d]. unfold Qle, round_half_even. simpl. intros Hn.
  assert (0 <= n / Z.pos d) by (apply Z.div_pos; lia).
  destruct (2 * (n mod Z.pos d) ?= Z.pos d); [|lia..].
  destruct (Z.even (n / Z.pos d)); lia.
Qed.

(** A number formatted with [prec >= 1] decimals reads [sign ip . frac],
    with a minus sign exactly for a negative number and [prec] digits after
    the point; read as the integer [ip frac], the digits are the integer
    nearest to the magnitude scaled by [10^prec]: what is shown differs from
    the value by at most half a unit of the last decimal. *)
Theorem format_f_value (prec : nat) (x : Q) :
  prec <> 0%nat ->
  exists sign ip frac,
    format_f prec x = sign +:+ ip +:+ "." +:+ frac /\
    sign = (if Qle_bool 0 x then "" else "-") /\
    String.length frac = prec /\
    (Qabs (Qabs x * inject_Z (10 ^ Z.of_nat prec) -
           inject_Z (digits_value ip * 10 ^ Z.of_nat prec + digits_value frac))
     <= 1 # 2)%Q.
Proof.
  intros Hp. unfold format_f. destruct prec as [|p]; [done|].
  set (scale := 10 ^ Z.of_nat (S p)).
  set (y := (Qabs x * inject_Z scale)%Q).
  set (n := round_half_even y).
  assert (Hscale : 0 < scale) by (apply Z.pow_pos_nonneg; lia).
  assert (Hy : (0 <= y)%Q).
  { apply Qmult_le_0_compat; [apply Qabs_nonneg|].
    unfold Qle. simpl. lia. }
  assert (Hn : 0 <= n) by by apply round_half_even_nonneg.
  exists (if Qle_bool 0 x then "" else "-"),
         (pretty (Z.to_N (n / scale))), (fixed_digits (S p) (n mod scale)).
  split; [done|]. split; [done|]. split; [apply fixed_digits_length|].
  rewrite pretty_N_value. unfold digits_value.
  rewrite fixed_digits_value. fold scale.
  rewrite Z2N.id by (apply Z.div_pos; lia).
  rewrite Z.mod_mod by lia.
  replace (n / scale * scale + (0 * scale + n mod scale)) with n
    by (pose proof (Z.div_mod n scale ltac:(lia)); lia).
  apply round_half_even_nearest.
Qed.

Lemma format_f_value_witness :
  4%nat <> 0%nat /\
  exists sign ip frac,
    format_f 4 0.60 = sign +:+ ip +:+ "." +:+ frac /\
    sign = (if Qle_bool 0 0.60 then "" else "-") /\
    String.length frac = 4%nat /\
    (Qabs (Qabs 0.60 * inject_Z (10 ^ Z.of_nat 4) -
           inject_Z (digits_value ip * 10 ^ Z.of_nat 4 + digits_value frac))
     <= 1 # 2)%Q.
Proof. split; [lia|]. apply (format_f_value 4 0.60). lia. Defined.

(** ** Letter case in the search *)

Lemma lower_facts c :
  Re.lower (Re.lower c) = Re.lower c /\
  Re.special (Re.lower c) = Re.special c /\
  Ascii.eqb (Re.lower c) "." = Ascii.eqb c "." /\
  Ascii.eqb (Re.lower c) Re.LF = Ascii.eqb c Re.LF /\
  Re.is_ascii (Re.lower c) = Re.is_ascii c.
Proof. destruct c as [[] [] [] [] [] [] [] []]; by vm_compute. Qed.

Lemma lower_string_idem s : lower_string (lower_string s) = lower_string s.
Proof.
  induction s as [|c s IH]; simpl; [done|].
  by rewrite IH, (proj1 (lower_facts c)).
Qed.

Lemma match_here_ext re1 re2 s :
  Forall2 (fun a1 a2 => forall d, Re.atom_matches a1 d = Re.atom_matches a2 d)
          re1 re2 ->
  Re.match_here re1 s = Re.match_here re2 s.
Proof.
  intros H. revert s. induction H as [|a1 a2 re1 re2 Ha _ IH]; intros s.
  - by destruct s.
  - destruct s as [|d s]; simpl; [done|]. by rewrite Ha, IH.
Qed.

Lemma search_ext re1 re2 s :
  Forall2 (fun a1 a2 => forall d, Re.atom_matches a1 d = Re.atom_matches a2 d)
          re1 re2 ->
  Re.search re1 s = Re.search re2 s.
Proof.
  intros H. induction s as [|d s IH]; simpl.
  - by rewrite (match_here_ext re1 re2 "" H).
  - by rewrite (match_here_ext re1 re2 _ H), IH.
Qed.

Lemma compile_lower q :
  option_Forall2
    (Forall2 (fun a1 a2 => forall d,
                Re.atom_matches a1 d = Re.atom_matches a2 d))
    (Re.compile (lower_string q)) (Re.compile q).
Proof.
  induction q as [|c q IH]; simpl; [repeat constructor|].
  destruct (lower_facts c) as (Hl & Hs & Hdot & _ & Ha).
  rewrite Hdot, Hs, Ha.
  destruct (Re.is_ascii c); simpl; [|constructor].
  destruct (Ascii.eqb c ".") eqn:Edot; simpl.
  - destruct IH; simpl; constructor. by constructor.
  - destruct (Re.special c); simpl; [constructor|].
    destruct IH; simpl; constructor. constructor; [|done].
    intros d. simpl. by rewrite Hl.
Qed.

Lemma search_view_lower df q : search_view df (lower_string q) = search_view df q.
Proof.
  destruct q as [|c q]; [done|].
  pose proof (compile_lower (String c q)) as H.
  unfold search_view. simpl lower_string in *.
  destruct H as [re1 re2 H|]; simpl; [|done].
  destruct (ascii_texts df); [|done].
  f_equal. apply filter_ext. intros row.
  by rewrite !(search_ext re1 re2 _ H).
Qed.

Lemma match_here_lower re s :
  Re.match_here re (lower_string s) = Re.match_here re s.
Proof.
  revert s. induction re as [|a re IH]; intros s; [by destruct s|].
  destruct s as [|d s]; simpl; [done|]. rewrite IH. f_equal.
  destruct (lower_facts d) as (Hl & _ & _ & HLF & _).
  destruct a; simpl; [by rewrite Hl|by rewrite HLF].
Qed.

Lemma search_lower re s : Re.search re (lower_string s) = Re.search re s.
Proof.
  induction s as [|d s IH]; simpl; [done|].
  rewrite IH. f_equal. apply (match_here_lower re (String d s)).
Qed.

Lemma search_view_some df q :
  Re.in_fragment q = true -> ascii_texts df = true ->
  exists rows, search_view df q = Some rows.
Proof.
  intros Hq Hdf. destruct (compile_in_fragment q Hq) as (re & Hre).
  unfold search_view. destruct q as [|c q]; [by eexists|].
  rewrite Hre, Hdf. by eexists.
Qed.

(** Within the fragment the search does not see letter case: over a table
    of ASCII texts, two queries that differ in letter case only both
    return rows, and the same ones; and a row is kept or dropped as the row
    with its texts in lower case would be. *)
Theorem search_view_case (df : list display_row) (q1 q2 : string) :
  lower_string q1 = lower_string q2 ->
  Re.in_fragment q1 = true ->
  ascii_texts df = true ->
  (exists rows, search_view df q1 = Some rows /\
                search_view df q2 = Some rows) /\
  forall re row,
    Re.compile q1 = Some re -> row ∈ df ->
    Re.search re (Antecedente row)
    = Re.search re (lower_string (Antecedente row)) /\
    Re.search re (Consecuente row)
    = Re.search re (lower_string (Consecuente row)).
Proof.
  intros H Hq Hdf. split.
  - destruct (search_view_some df q1 Hq Hdf) as (rows & Hrows).
    exists rows. split; [done|].
    by rewrite <-(search_view_lower df q2), <-H, search_view_lower.
  - intros re row _ _. by rewrite !search_lower.
Qed.

Lemma search_view_case_witness :
  lower_string "BREAD" = lower_string "Bread" /\
  Re.in_fragment "BREAD" = true /\
  ascii_texts (display_df example_rules) = true /\
  (exists rows, search_view (display_df example_rules) "BREAD" = Some rows /\
                search_view (display_df example_rules) "Bread" = Some rows) /\
  forall re row,
    Re.compile "BREAD" = Some re -> row ∈ display_df example_rules ->
    Re.search re (Antecedente row)
    = Re.search re (lower_string (Antecedente row)) /\
    Re.search re (Consecuente row)
    = Re.search re (lower_string (Consecuente row)).
Proof.
  split; [reflexivity|]. split; [reflexivity|]. split; [reflexivity|].
  exact (search_view_case (display_df example_rules) "BREAD" "Bread"
           eq_refl eq_refl eq_refl).
Defined.

(** ** Quoting and lines of the export *)

Lemma join_items_cons a b x :
  join_items (a :: b :: x) = a +:+ ", " +:+ join_items (b :: x).
Proof. reflexivity. Qed.

(** The joined text of an item set is put in quotes exactly when the set has
    two items or more, or one of its items holds a comma, a double quote or
    a line break; so a rule with several items on a side still fills one
    field. *)
Theorem join_items_quoted (x : list string) :
  Csv.needs_quotes (join_items x) = true <->
  (2 <= length x)%nat \/ exists a, a ∈ x /\ Csv.needs_quotes a = true.
Proof.
  induction x as [|a [|b x] IH].
  - simpl. split; [done|]. intros [?|(a & Ha & _)]; [lia|inversion Ha].
  - simpl. split; [intros H; right; exists a; split; [left|done]|].
    intros [?|(a' & ->%list_elem_of_singleton & H)]; [lia|done].
  - rewrite join_items_cons, !needs_quotes_app. split; [intros _; left; simpl; lia|].
    intros _. rewrite orb_true_iff. right. reflexivity.
Qed.

Lemma count_LF_app a b : count_LF (a +:+ b) = (count_LF a + count_LF b)%nat.
Proof.
  induction a as [|c a IH]; [done|].
  rewrite string_app_cons. simpl. rewrite IH. lia.
Qed.

Lemma count_LF_double_quotes s : count_LF (Csv.double_quotes s) = count_LF s.
Proof.
  induction s as [|c s IH]; simpl; [done|].
  destruct (Ascii.eqb c Csv.quotechar) eqn:E; simpl; rewrite IH; [|done].
  apply Ascii.eqb_eq in E as ->. done.
Qed.

Lemma count_LF_write_field s : count_LF (Csv.write_field s) = count_LF s.
Proof.
  unfold Csv.write_field. destruct (Csv.needs_quotes s); [|done].
  rewrite string_app_cons. simpl. rewrite count_LF_app, count_LF_double_quotes.
  simpl. lia.
Qed.

Lemma count_LF_join_items x :
  Forall (fun a => count_LF a = 0%nat) x -> count_LF (join_items x) = 0%nat.
Proof.
  induction 1 as [|a x Ha Hx IH]; [done|].
  destruct x as [|b x]; [done|].
  rewrite join_items_cons, !count_LF_app, Ha, IH. done.
Qed.

Lemma is_digit_not_LF c : is_digit c = true -> Ascii.eqb c Re.LF = false.
Proof. destruct c as [[] [] [] [] [] [] [] []]; by vm_compute. Qed.

Lemma count_LF_digits s : all_digits s = true -> count_LF s = 0%nat.
Proof.
  induction s as [|c s IH]; simpl; [done|].
  intros [Hc Hs]%andb_true_iff. by rewrite (is_digit_not_LF c Hc), (IH Hs).
Qed.

Lemma count_LF_fixed_point prec s : fixed_point prec s -> count_LF s = 0%nat.
Proof.
  intros (sign & ip & frac & -> & Hsign & _ & Hip & Hfrac & _).
  rewrite !count_LF_app, (count_LF_digits ip Hip), (count_LF_digits frac Hfrac).
  by destruct Hsign as [-> | ->].
Qed.

Lemma count_LF_concat lines :
  Forall (fun line => count_LF line = 1%nat) lines ->
  count_LF (String.concat "" lines) = length lines.
Proof.
  induction 1 as [|line lines Hl Hls IH]; [done|].
  destruct lines as [|line' lines].
  - simpl. by rewrite Hl.
  - change (String.concat "" (line :: line' :: lines))
      with (line +:+ "" +:+ String.concat "" (line' :: lines)).
    rewrite !count_LF_app, Hl, IH. simpl. lia.
Qed.

(** When no item name holds a line feed, the export of a view has exactly
    one line feed per row besides the one that ends the header: one line per
    rule. *)
Theorem to_csv_line_count (V : DataFrame) (df : list display_row) :
  Forall (fun r => Forall (fun a => count_LF a = 0%nat)
                          (antecedents r ++ consequents r)) V ->
  sublist df (display_df V) ->
  count_LF (Csv.to_csv df) = S (length df).
Proof.
  intros HV Hsub. rewrite (to_csv_lines V df Hsub), count_LF_app.
  rewrite count_LF_concat.
  - rewrite length_fmap. by vm_compute.
  - apply Forall_fmap, Forall_forall. intros row Hrow. simpl.
    assert (Hin : row ∈ display_df V) by by eapply elem_of_sublist.
    destruct (display_df_fixed_point V row Hin) as (Hs & Hc & Hl).
    unfold display_df in Hin.
    apply list_elem_of_fmap in Hin as (r & -> & Hr).
    rewrite Forall_forall in HV. specialize (HV r Hr).
    apply Forall_app in HV as [Ha Hc'].
    unfold Csv.row_line. simpl in *.
    rewrite !count_LF_app, !count_LF_write_field,
      (count_LF_join_items _ Ha), (count_LF_join_items _ Hc'),
      (count_LF_fixed_point _ _ Hs), (count_LF_fixed_point _ _ Hc),
      (count_LF_fixed_point _ _ Hl).
    done.
Qed.

Lemma to_csv_line_count_witness :
  Forall (fun r => Forall (fun a => count_LF a = 0%nat)
                          (antecedents r ++ consequents r)) example_rules /\
  sublist (display_df [bread_butter; milk_bread]) (display_df example_rules) /\
  count_LF (Csv.to_csv (display_df [bread_butter; milk_bread])) = 3%nat.
Proof.
  assert (H1 : Forall (fun r => Forall (fun a => count_LF a = 0%nat)
                                       (antecedents r ++ consequents r))
                      example_rules) by (repeat constructor).
  assert (H2 : sublist (display_df [bread_butter; milk_bread])
                       (display_df example_rules))
    by (vm_compute; repeat constructor).
  split; [exact H1|]. split; [exact H2|].
  exact (to_csv_line_count example_rules
           (display_df [bread_butter; milk_bread]) H1 H2).
Defined.

(** ** Bar-chart data *)

Lemma filter_none {A} (f : A -> bool) (l : list A) :
  (forall x, x ∈ l -> f x = false) -> List.filter f l = [].
Proof.
  induction l as [|x l IH]; intros H; simpl; [done|].
  rewrite (H x) by left. apply IH. intros y Hy. apply H. by right.
Qed.

Section value_counts.
Implicit Types (v w : Q) (k : nat) (cs : list (Q * nat)) (col : list Q).

Lemma count_value_sum v cs :
  sum_list (snd <$> count_value v cs) = S (sum_list (snd <$> cs)).
Proof.
  induction cs as [|[w k] cs IH]; [done|]. cbn [count_value].
  destruct (v ?= w)%Q; rewrite ?fmap_cons; cbn [sum_list snd];
    rewrite ?IH; unfold id; lia.
Qed.

Lemma count_value_keys v cs w k :
  (w, k) ∈ count_value v cs -> w = v \/ exists k0, (w, k0) ∈ cs.
Proof.
  induction cs as [|[w0 k0] cs IH]; simpl.
  - intros [= -> ->]%list_elem_of_singleton. by left.
  - destruct (v ?= w0)%Q.
    + intros [[= -> ->]|H]%elem_of_cons; right; eexists; [left|by right].
    + intros [[= -> ->]|H]%elem_of_cons; [by left|]. right. by exists k.
    + intros [[= -> ->]|H]%elem_of_cons; [right; eexists; left|].
      destruct (IH H) as [->|(k1 & Hk1)]; [by left|].
      right. exists k1. by right.
Qed.

Lemma count_value_sorted v cs :
  StronglySorted (fun p q => (p.1 < q.1)%Q) cs ->
  StronglySorted (fun p q => (p.1 < q.1)%Q) (count_value v cs).
Proof.
  induction 1 as [|[w0 k0] cs Hcs IH Hhd]; simpl; [repeat constructor|].
  destruct (v ?= w0)%Q eqn:E.
  - constructor; [done|]. exact Hhd.
  - apply Qlt_alt in E. constructor; [by constructor|].
    constructor; [done|]. eapply Forall_impl; [exact Hhd|].
    intros [w k] Hw. simpl in *. by eapply Qlt_trans.
  - apply Qgt_alt in E. constructor; [done|].
    apply Forall_forall. intros [w k] Hin. simpl.
    apply count_value_keys in Hin as [->|(k1 & Hk1)]; [done|].
    rewrite Forall_forall in Hhd. apply (Hhd _ Hk1).
Qed.

Lemma count_value_entry v cs w k :
  StronglySorted (fun p q => (p.1 < q.1)%Q) cs ->
  (w, k) ∈ count_value v cs ->
  (w = v /\ k = 1%nat /\ forall w' k', (w', k') ∈ cs -> ~ (v == w')%Q) \/
  (exists k0, (w, k0) ∈ cs /\
     (((v == w)%Q /\ k = S k0) \/ (~ (v == w)%Q /\ k = k0))).
Proof.
  induction 1 as [|[w0 k0] cs Hcs IH Hhd]; simpl.
  - intros [= -> ->]%list_elem_of_singleton. left. repeat split.
    intros w' k' H. inversion H.
  - rewrite Forall_forall in Hhd.
    destruct (v ?= w0)%Q eqn:E.
    + apply Qeq_alt in E.
      intros [[= -> ->]|H]%elem_of_cons; right.
      * exists k0. split; [left|]. by left.
      * exists k. split; [by right|]. right. split; [|done].
        intros Hv. specialize (Hhd _ H). simpl in Hhd.
        rewrite <-Hv, E in Hhd. by apply Qlt_irrefl in Hhd.
    + apply Qlt_alt in E.
      intros [[= -> ->]|H]%elem_of_cons.
      * left. repeat split. intros w' k' [[= -> ->]|H']%elem_of_cons Hv.
        -- rewrite Hv in E. by apply Qlt_irrefl in E.
        -- specialize (Hhd _ H'). simpl in Hhd. rewrite Hv in E.
           apply (Qlt_irrefl w'). by eapply Qlt_trans.
      * right. exists k. split; [done|]. right. split; [|done].
        intros Hv. apply elem_of_cons in H as [[= -> ->]|H].
        -- rewrite Hv in E. by apply Qlt_irrefl in E.
        -- specialize (Hhd _ H). simpl in Hhd. rewrite Hv in E.
           apply (Qlt_irrefl w). by eapply Qlt_trans.
    + apply Qgt_alt in E.
      intros [[= -> ->]|H]%elem_of_cons.
      * right. exists k0. split; [left|]. right. split; [|done].
        intros Hv. rewrite Hv in E. by apply Qlt_irrefl in E.
      * destruct (IH H) as [(-> & -> & Hnew)|(k1 & Hk1 & Hcase)].
        -- left. repeat split. intros w' k' [[= -> ->]|H']%elem_of_cons Hv.
           ++ rewrite Hv in E. by apply Qlt_irrefl in E.
           ++ by apply (Hnew w' k').
        -- right. exists k1. split; [by right|done].
Qed.

Lemma count_value_has v cs : exists w k, (w, k) ∈ count_value v cs /\ (v == w)%Q.
Proof.
  induction cs as [|[w0 k0] cs (w & k & Hin & Hv)]; simpl.
  - exists v, 1%nat. split; [left|reflexivity].
  - destruct (v ?= w0)%Q eqn:E.
    + apply Qeq_alt in E. exists w0, (S k0). split; [left|done].
    + exists v, 1%nat. split; [left|reflexivity].
    + exists w, k. split; [by right|done].
Qed.

Lemma count_value_keeps v cs w k0 :
  (w, k0) ∈ cs -> exists k, (w, k) ∈ count_value v cs.
Proof.
  induction cs as [|[w1 k1] cs IH]; simpl; [by intros H; inversion H|].
  intros [[= -> ->]|H]%elem_of_cons.
  - destruct (v ?= w1)%Q; eexists; [left|right; left|left].
  - destruct (v ?= w1)%Q.
    + exists k0. by right.
    + exists k0. by do 2 right.
    + destruct (IH H) as (k & Hk). exists k. by right.
Qed.

(** The data of a bar chart: the values are in strictly ascending order,
    every value of the column has its entry, the number beside a value is
    the number of rows that hold it (at least one), and the numbers add up
    to the number of rows. *)
Theorem value_counts_sorted_spec col :
  StronglySorted (fun p q => (p.1 < q.1)%Q) (value_counts_sorted col) /\
  (forall w k, (w, k) ∈ value_counts_sorted col ->
     (1 <= k)%nat /\
     k = length (List.filter (fun y => Qeq_bool y w) col)) /\
  (forall y, y ∈ col ->
     exists w k, (w, k) ∈ value_counts_sorted col /\ (y == w)%Q) /\
  sum_list (snd <$> value_counts_sorted col) = length col.
Proof.
  induction col as [|v col (Hs & Hc & Hk & Hsum)]; simpl.
  - split; [constructor|]. split; [intros w k H; inversion H|].
    split; [intros y H; inversion H|done].
  - fold (value_counts_sorted col).
    split; [by apply count_value_sorted|]. split; [|split].
    + intros w k Hin.
      apply count_value_entry in Hin
        as [(-> & -> & Hnew)|(k0 & Hk0 & Hcase)]; [| |exact Hs].
      * split; [lia|]. simpl.
        rewrite (proj2 (Qeq_bool_iff v v)) by reflexivity. simpl. f_equal.
        rewrite filter_none; [done|]. intros y Hy.
        destruct (Qeq_bool y v) eqn:E; [|done]. apply Qeq_bool_iff in E.
        destruct (Hk y Hy) as (w' & k' & Hin' & Hy').
        destruct (Hnew w' k' Hin'). by rewrite <-E, Hy'.
      * destruct (Hc w k0 Hk0) as [Hpos Hlen].
        destruct Hcase as [[Hv ->]|[Hv ->]].
        -- split; [lia|]. simpl.
           rewrite (proj2 (Qeq_bool_iff v w) Hv). simpl. by f_equal.
        -- split; [done|]. simpl. destruct (Qeq_bool v w) eqn:E; [|done].
           by apply Qeq_bool_iff in E.
    + intros y [->|Hy]%elem_of_cons; [apply count_value_has|].
      destruct (Hk y Hy) as (w & k0 & Hin & Hyw).
      destruct (count_value_keeps v _ w k0 Hin) as (k & Hin').
      by exists w, k.
    + by rewrite count_value_sum, Hsum.
Qed.

End value_counts.
